(** * ticktick-mcp: session lifecycle and task aggregation

    A shallow embedding of [src/ticktick_mcp/client.py] and
    [src/ticktick_mcp/helpers.py].  Python code that touches the process
    (standard input, printing, logging, the remote service) is written in
    a state-and-exception monad; Python values are an inductive type. *)

From Stdlib Require Import List String Ascii ZArith NArith Bool Lia.
From Stdlib Require Import Permutation DecimalString.
Import ListNotations.
Local Open Scope string_scope.
Local Open Scope list_scope.

Set Implicit Arguments.
Set Warnings "-register-all".

(** ** Exceptions *)

(** The built-in exception classes that occur in the two modules or that
    the code they call is documented to raise.  [OtherException] stands
    for any further subclass of [Exception] (a library's own error). *)
Inductive ExcClass : Type :=
| RuntimeError
| ConnectionError
| TypeError
| ValueError
| AttributeError
| EOFError
| OtherException (name : string)
| KeyboardInterrupt
| SystemExit
| GeneratorExit.

Record PyExc : Type := mkExc { exc_class : ExcClass; exc_msg : string }.

(** [isinstance(e, Exception)]: in Python's hierarchy [KeyboardInterrupt],
    [SystemExit] and [GeneratorExit] derive from [BaseException] only. *)
Definition isinstance_Exception (e : PyExc) : bool :=
  match exc_class e with
  | KeyboardInterrupt | SystemExit | GeneratorExit => false
  | _ => true
  end.

Inductive Result (A : Type) : Type :=
| Ret (a : A)
| Raise (e : PyExc).
Arguments Ret {A} a.
Arguments Raise {A} e.

Definition returns {A} (r : Result A) : bool :=
  match r with Ret _ => true | Raise _ => false end.

(** ** The state-and-exception monad *)

Definition M (S A : Type) : Type := S -> Result A * S.

Definition ret {S A} (a : A) : M S A := fun s => (Ret a, s).
Definition raise {S A} (e : PyExc) : M S A := fun s => (Raise e, s).
Definition bind {S A B} (m : M S A) (k : A -> M S B) : M S B :=
  fun s => match m s with
           | (Ret a, s') => k a s'
           | (Raise e, s') => (Raise e, s')
           end.
Definition modify {S} (f : S -> S) : M S unit := fun s => (Ret tt, f s).

Notation "x <- m ;; k" := (bind m (fun x => k))
  (at level 61, m at next level, right associativity).
Notation "m ;;; k" := (bind m (fun _ => k))
  (at level 61, right associativity).

(** [try: body  except Exception as e: handler e].  An exception that is
    not an instance of [Exception] passes through. *)
Definition try_except {S A} (body : M S A) (handler : PyExc -> M S A) : M S A :=
  fun s => match body s with
           | (Raise e, s') =>
               if isinstance_Exception e then handler e s' else (Raise e, s')
           | r => r
           end.

(** [try: body  finally: fin].  [fin] runs on every exit; if it returns,
    the outcome of [body] stands. *)
Definition try_finally {S A} (body : M S A) (fin : M S unit) : M S A :=
  fun s => match body s with
           | (r, s') => match fin s' with
                        | (Ret _, s'') => (r, s'')
                        | (Raise e, s'') => (Raise e, s'')
                        end
           end.

(** ** Strings *)

Definition dquote : string := String (ascii_of_nat 34) EmptyString.
Definition newline : string := String (ascii_of_nat 10) EmptyString.

(** [s * n] *)
Fixpoint str_repeat (s : string) (n : nat) : string :=
  match n with
  | O => EmptyString
  | S n' => (s ++ str_repeat s n')%string
  end.

(** [sep.join(parts)] *)
Fixpoint join (sep : string) (parts : list string) : string :=
  match parts with
  | [] => EmptyString
  | [p] => p
  | p :: rest => (p ++ sep ++ join sep rest)%string
  end.

Fixpoint starts_with (p s : string) : bool :=
  match p, s with
  | EmptyString, _ => true
  | String a p', String b s' => Ascii.eqb a b && starts_with p' s'
  | String _ _, EmptyString => false
  end.

(** [needle in hay] *)
Fixpoint contains (needle hay : string) : bool :=
  starts_with needle hay
  || match hay with
     | EmptyString => false
     | String _ hay' => contains needle hay'
     end.

(** truthiness of a [str] *)
Definition str_truthy (s : string) : bool :=
  match s with EmptyString => false | _ => true end.

(** ** Logging *)

Inductive Level : Type := DEBUG | INFO | WARNING | ERROR.

(** What an f-string interpolates into a log message. *)
Inductive LogArg (V : Type) : Type :=
| AVal (v : V)
| AExc (e : PyExc)
| AText (s : string)
| ALen (n : nat).
Arguments AVal {V} v.
Arguments AExc {V} e.
Arguments AText {V} s.
Arguments ALen {V} n.

(** One call of [logging.<level>(f"...")]: the f-string's text with its
    placeholders, and the values interpolated, in order. *)
Record LogRec (V : Type) : Type :=
  mkLog { log_level : Level; log_text : string; log_args : list (LogArg V) }.

(** ** Python values *)

(** Hashable values: what can be a [dict] key or a [set] element.
    [KObj] is an instance of some other hashable class ([tuple], [bytes],
    a user class): [oid] is its identity, [cls] its class name and
    [repr] what [str()] returns for it. *)
Inductive PyKey : Type :=
| KNone
| KBool (b : bool)
| KInt (z : Z)
| KStr (s : string)
| KObj (oid : nat) (cls : string) (repr : string).

(** Values.  A [list] or [dict] that contains itself is written with
    [VBack n]: a reference to the [n]-th enclosing container, so
    [a = []; a.append(a)] is [VList [VBack 0]]. *)
Inductive PyVal : Type :=
| VNone
| VBool (b : bool)
| VInt (z : Z)
| VStr (s : string)
| VObj (oid : nat) (cls : string) (repr : string)
| VList (items : list PyVal)
| VDict (entries : list (PyKey * PyVal))
| VBack (n : nat).

Definition of_key (k : PyKey) : PyVal :=
  match k with
  | KNone => VNone
  | KBool b => VBool b
  | KInt z => VInt z
  | KStr s => VStr s
  | KObj o c r => VObj o c r
  end.

(** [hash(v)] succeeds exactly on the values below; a [list] or a
    [dict] is unhashable. *)
Definition as_key (v : PyVal) : option PyKey :=
  match v with
  | VNone => Some KNone
  | VBool b => Some (KBool b)
  | VInt z => Some (KInt z)
  | VStr s => Some (KStr s)
  | VObj o c r => Some (KObj o c r)
  | VList _ | VDict _ | VBack _ => None
  end.

(** [bool(v)] *)
Definition truthy (v : PyVal) : bool :=
  match v with
  | VNone => false
  | VBool b => b
  | VInt z => negb (z =? 0)%Z
  | VStr s => str_truthy s
  | VObj _ _ _ => true
  | VList items => match items with [] => false | _ => true end
  | VDict entries => match entries with [] => false | _ => true end
  | VBack _ => true
  end.

(** [type(v).__name__] *)
Definition type_name (v : PyVal) : string :=
  match v with
  | VNone => "NoneType"
  | VBool _ => "bool"
  | VInt _ => "int"
  | VStr _ => "str"
  | VObj _ c _ => c
  | VList _ => "list"
  | VDict _ => "dict"
  | VBack _ => "list"
  end.

Definition Z_of_bool (b : bool) : Z := if b then 1%Z else 0%Z.

(** [a == b] on hashable values: [True == 1], and instances of other
    classes compare by identity. *)
Definition key_eqb (a b : PyKey) : bool :=
  match a, b with
  | KNone, KNone => true
  | KBool x, KBool y => Bool.eqb x y
  | KInt x, KInt y => (x =? y)%Z
  | KBool x, KInt y => (Z_of_bool x =? y)%Z
  | KInt x, KBool y => (x =? Z_of_bool y)%Z
  | KStr x, KStr y => String.eqb x y
  | KObj o1 _ _, KObj o2 _ _ => Nat.eqb o1 o2
  | _, _ => false
  end.

(** [d.get(k)]: the value of the first entry whose key equals [k], else
    [None]. *)
Fixpoint dict_get (k : PyKey) (d : list (PyKey * PyVal)) : PyVal :=
  match d with
  | [] => VNone
  | (k', v) :: rest => if key_eqb k' k then v else dict_get k rest
  end.

(** A value of the configuration module: [os.getenv] gives a [str] or
    [None]. *)
Definition of_opt (o : option string) : PyVal :=
  match o with Some s => VStr s | None => VNone end.

Definition Log : Type := LogRec PyVal.

(** ** The remote client handle *)

(** A [TickTickClient] as the two modules use it: what reading
    [.state.get('projects', [])] and [.inbox_id] gives, and what
    [.task.get_from_project(project_id)] gives for each identifier.  The
    project state is a list of project dictionaries. *)
Record TickTickClient : Type := mkClient {
  state_get_projects : Result (list (list (PyKey * PyVal)));
  inbox_id : Result PyVal;
  get_from_project : PyKey -> Result PyVal
}.

(** ** client.py *)

(** What a blocking read of standard input will deliver next: a line, or
    the user pressing Ctrl-C at the prompt.  No item left is end of file. *)
Inductive StdinItem : Type :=
| Line (s : string)
| Interrupt.

Section Client.

(** The state of the remote service and of the token cache file. *)
Variable Ext : Type.
(** The library's negotiator object. *)
Variable OAuth2 : Type.

(** What library code can touch: the terminal and the outside world. *)
Record Sys : Type := mkSys {
  stdin_isatty : bool;
  stdin_pending : list StdinItem;
  stdin_reads : nat;
  stdout : list string;
  ext : Ext
}.

Definition input (prompt : string) : M Sys string :=
  fun s =>
    let s' := mkSys (stdin_isatty s) (tl (stdin_pending s))
                    (S (stdin_reads s)) (stdout s ++ [prompt]) (ext s) in
    match stdin_pending s with
    | Line l :: _ => (Ret l, s')
    | Interrupt :: _ => (Raise (mkExc KeyboardInterrupt ""), s')
    | [] => (Raise (mkExc EOFError "EOF when reading a line"), s')
    end.

Definition error_msg : list string :=
  [ "";
    str_repeat "=" 80;
    "🔧 TICKTICK AUTHENTICATION REQUIRED";
    str_repeat "=" 80;
    "The TickTick MCP server needs to authenticate with TickTick's API first.";
    "Since you're running this as an MCP server, interactive authentication cannot";
    "work because stdin/stdout are used for MCP protocol communication.";
    "";
    "SOLUTION: Run the setup command first in a separate terminal:";
    "";
    "  ticktick-mcp-setup";
    "";
    "This will handle the OAuth2 flow interactively and cache the authentication";
    "token. After that, the MCP server will work normally.";
    "";
    "If you don't have the setup command, you can also run:";
    "";
    ("  python -c " ++ dquote
       ++ "from ticktick_mcp.client import setup_auth; setup_auth()" ++ dquote)%string;
    "";
    str_repeat "=" 80;
    "" ].

(** [MCPFriendlyOAuth2._get_user_input] *)
Definition _get_user_input (prompt : string) : M Sys string :=
  fun s =>
    if negb (stdin_isatty s)
    then raise (mkExc RuntimeError (join newline error_msg)) s
    else input prompt s.

(** The configuration module's constants. *)
Record Config : Type := mkConfig {
  CLIENT_ID : option string;
  CLIENT_SECRET : option string;
  REDIRECT_URI : option string;
  USERNAME : option string;
  PASSWORD : option string;
  dotenv_dir_path : string
}.

Variable cfg : Config.

(** The keyword arguments of the negotiator's constructor. *)
Record OAuth2Args : Type := mkOAuth2Args {
  client_id : option string;
  client_secret : option string;
  redirect_uri : option string;
  cache_path : string
}.

(** [OAuth2.__init__] of the library, run on an object whose
    [_get_user_input] is the method given, and [TickTickClient.__init__]. *)
Variable OAuth2_init :
  (string -> M Sys string) -> OAuth2Args -> M Sys OAuth2.
Variable TickTickClient_init :
  option string -> option string -> OAuth2 -> M Sys TickTickClient.

Inductive Call : Type :=
| CallOAuth2 (args : OAuth2Args)
| CallTickTickClient (username password : option string).

Definition is_CallOAuth2 (c : Call) : bool :=
  match c with CallOAuth2 _ => true | _ => false end.
Definition is_CallTickTickClient (c : Call) : bool :=
  match c with CallTickTickClient _ _ => true | _ => false end.

(** The process: the terminal and outside world, the log, the library
    constructors called so far, and the two class attributes of
    [TickTickClientSingleton]. *)
Record Process : Type := mkProcess {
  sys : Sys;
  logs : list Log;
  calls : list Call;
  _instance : option TickTickClient;
  _initialized : bool
}.

Definition logging (lvl : Level) (text : string) (args : list (LogArg PyVal))
  : M Process unit :=
  modify (fun p => mkProcess (sys p) (logs p ++ [mkLog lvl text args])
                             (calls p) (_instance p) (_initialized p)).

Definition record_call (c : Call) : M Process unit :=
  modify (fun p => mkProcess (sys p) (logs p) (calls p ++ [c])
                             (_instance p) (_initialized p)).

Definition set_instance (i : option TickTickClient) : M Process unit :=
  modify (fun p => mkProcess (sys p) (logs p) (calls p) i (_initialized p)).

Definition set_initialized (b : bool) : M Process unit :=
  modify (fun p => mkProcess (sys p) (logs p) (calls p) (_instance p) b).

(** Run library code, which sees the terminal and the outside world only. *)
Definition in_sys {A} (m : M Sys A) : M Process A :=
  fun p => match m (sys p) with
           | (r, s') => (r, mkProcess s' (logs p) (calls p)
                                      (_instance p) (_initialized p))
           end.

Definition print (line : string) : M Process unit :=
  in_sys (modify (fun s => mkSys (stdin_isatty s) (stdin_pending s)
                                 (stdin_reads s) (stdout s ++ [line]) (ext s))).

Definition token_cache_path : string :=
  (dotenv_dir_path cfg ++ "/.token-oauth")%string.

(** [MCPFriendlyOAuth2(client_id=..., ...)]: the library's constructor on
    the subclass, whose [_get_user_input] is the override above. *)
Definition MCPFriendlyOAuth2 (args : OAuth2Args) : M Process OAuth2 :=
  record_call (CallOAuth2 args) ;;;
  in_sys (OAuth2_init _get_user_input args).

Definition new_TickTickClient (username password : option string)
  (auth : OAuth2) : M Process TickTickClient :=
  record_call (CallTickTickClient username password) ;;;
  in_sys (TickTickClient_init username password auth).

(** [all([CLIENT_ID, CLIENT_SECRET, REDIRECT_URI, USERNAME, PASSWORD])] *)
Definition credentials_present : bool :=
  forallb truthy
    [ of_opt (CLIENT_ID cfg); of_opt (CLIENT_SECRET cfg);
      of_opt (REDIRECT_URI cfg); of_opt (USERNAME cfg); of_opt (PASSWORD cfg) ].

Definition oauth2_args : OAuth2Args :=
  mkOAuth2Args (CLIENT_ID cfg) (CLIENT_SECRET cfg) (REDIRECT_URI cfg)
               token_cache_path.

(** The two constructor calls of lines 68 to 77 and of lines 117 to
    126, one after the other, as seen from the library: what the
    authentication sequence returns or raises, logging left out. *)
Definition authenticate : M Sys TickTickClient :=
  auth_client <- OAuth2_init _get_user_input oauth2_args ;;
  TickTickClient_init (USERNAME cfg) (PASSWORD cfg) auth_client.

(** The terminal once [setup_auth] has printed its three opening
    lines. *)
Definition after_banner (s : Sys) : Sys :=
  mkSys (stdin_isatty s) (stdin_pending s) (stdin_reads s)
        (((stdout s ++ ["Setting up TickTick MCP Server authentication..."])
            ++ ["This will handle the OAuth2 flow interactively."]) ++ [""])
        (ext s).

(** [setup_auth] *)
Definition setup_auth : M Process bool :=
  print "Setting up TickTick MCP Server authentication..." ;;;
  print "This will handle the OAuth2 flow interactively." ;;;
  print "" ;;;
  if negb credentials_present then
    logging ERROR
      "TickTick credentials not found in environment variables. Ensure .env file is correct."
      [] ;;;
    ret false
  else
    try_except
      (logging INFO "Initializing OAuth2 with cache path: {}"
         [AText token_cache_path] ;;;
       auth_client <- MCPFriendlyOAuth2 oauth2_args ;;
       logging INFO "Initializing TickTickClient with username: {}"
         [AVal (of_opt (USERNAME cfg))] ;;;
       client <- new_TickTickClient (USERNAME cfg) (PASSWORD cfg) auth_client ;;
       logging INFO "✅ Authentication successful! Token cached for future use." [] ;;;
       print "✅ Authentication successful!" ;;;
       print "You can now run the MCP server." ;;;
       ret true)
      (fun e =>
         logging ERROR "❌ Error during authentication: {}" [AExc e] ;;;
         print ("❌ Error during authentication: " ++ exc_msg e)%string ;;;
         ret false).

(** [TickTickClientSingleton.__init__] *)
Definition __init__ : M Process unit :=
  fun p =>
    if _initialized p then ret tt p
    else if negb credentials_present then
      (logging ERROR
         "TickTick credentials not found in environment variables (checked in config.py). Ensure .env file is correct."
         [] ;;;
       set_instance None ;;;
       set_initialized true ;;;
       ret tt) p
    else
      try_finally
        (try_except
           (logging INFO "Initializing OAuth2 with cache path: {}"
              [AText token_cache_path] ;;;
            auth_client <- MCPFriendlyOAuth2 oauth2_args ;;
            logging INFO "Initializing TickTickClient with username: {}"
              [AVal (of_opt (USERNAME cfg))] ;;;
            client <- new_TickTickClient (USERNAME cfg) (PASSWORD cfg) auth_client ;;
            logging INFO "TickTick client initialized successfully within singleton." [] ;;;
            set_instance (Some client))
           (fun e =>
              logging ERROR "Error initializing TickTick client within singleton: {}"
                [AExc e] ;;;
              set_instance None))
        (set_initialized true) p.

(** [TickTickClientSingleton.get_client]; [cls()] runs [__new__], which
    only allocates, and then [__init__]. *)
Definition get_client : M Process (option TickTickClient) :=
  (fun p => if negb (_initialized p) then __init__ p else ret tt p) ;;;
  (fun p => match _instance p with
            | None =>
                logging WARNING
                  "get_client() called, but TickTick client failed to initialize." [] p
            | Some _ => ret tt p
            end) ;;;
  (fun p => ret (_instance p) p).

(** The two records the accessor logs for a session that is
    unavailable for want of credentials. *)
Definition error_no_credentials : Log :=
  mkLog ERROR
    "TickTick credentials not found in environment variables (checked in config.py). Ensure .env file is correct."
    [].

Definition warning_unavailable : Log :=
  mkLog WARNING "get_client() called, but TickTick client failed to initialize." [].

(** The record the accessor logs for an error [e] caught during
    initialization. *)
Definition error_initializing (e : PyExc) : Log :=
  mkLog ERROR "Error initializing TickTick client within singleton: {}" [AExc e].

(** The records [setup_auth] logs for a failure. *)
Definition error_setup_credentials : Log :=
  mkLog ERROR
    "TickTick credentials not found in environment variables. Ensure .env file is correct."
    [].


(** The process as the module is imported: both class attributes at
    their declared values. *)
Definition start (s : Sys) : Process := mkProcess s [] [] None false.

(** [n] successive calls of the accessor; a caller that sees one of them
    raise goes on to the next.  The outcomes are listed in call order. *)
Fixpoint get_client_times (n : nat) (p : Process)
  : list (Result (option TickTickClient)) * Process :=
  match n with
  | O => ([], p)
  | S n' => match get_client p with
            | (r, p') => match get_client_times n' p' with
                         | (rs, p'') => (r :: rs, p'')
                         end
            end
  end.

End Client.

(** ** json.dumps *)

Definition str_of_Z (z : Z) : string := NilZero.string_of_int (Z.to_int z).

Definition is_cont (b : N) : bool := ((128 <=? b) && (b <? 192))%N.

(** The code points of a [str], held here as its UTF-8 bytes.  A byte
    that starts no well-formed sequence stands for itself. *)
Fixpoint code_points (s : string) : list N :=
  match s with
  | EmptyString => []
  | String a r1 =>
      let x := N_of_ascii a in
      let alone := x :: code_points r1 in
      if (x <? 192)%N then alone
      else
        match r1 with
        | String b r2 =>
            let y := N_of_ascii b in
            if ((x <? 224) && is_cont y)%N
            then ((x - 192) * 64 + (y - 128))%N :: code_points r2
            else
              match r2 with
              | String c r3 =>
                  let z := N_of_ascii c in
                  if ((224 <=? x) && (x <? 240) && is_cont y && is_cont z)%N
                  then ((x - 224) * 4096 + (y - 128) * 64 + (z - 128))%N
                         :: code_points r3
                  else
                    match r3 with
                    | String d r4 =>
                        let u := N_of_ascii d in
                        if ((240 <=? x) && (x <? 248) && is_cont y
                            && is_cont z && is_cont u)%N
                        then ((x - 240) * 262144 + (y - 128) * 4096
                              + (z - 128) * 64 + (u - 128))%N
                               :: code_points r4
                        else alone
                    | EmptyString => alone
                    end
              | EmptyString => alone
              end
        | EmptyString => alone
        end
  end.

Definition chr (n : N) : string := String (ascii_of_N n) EmptyString.

Definition hex_digit (n : N) : string :=
  if (n <? 10)%N then chr (48 + n) else chr (87 + n).

(** ['{0:04x}'.format(n)] for [n < 0x10000] *)
Definition hex4 (n : N) : string :=
  (hex_digit (N.shiftr n 12 mod 16) ++ hex_digit (N.shiftr n 8 mod 16)
   ++ hex_digit (N.shiftr n 4 mod 16) ++ hex_digit (n mod 16))%string.

Definition backslash : string := chr 92.

(** The replacement [py_encode_basestring_ascii] makes for one code
    point. *)
Definition escape_code_point (c : N) : string :=
  if (c =? 34)%N then (backslash ++ dquote)%string
  else if (c =? 92)%N then (backslash ++ backslash)%string
  else if (c =? 10)%N then (backslash ++ "n")%string
  else if (c =? 13)%N then (backslash ++ "r")%string
  else if (c =? 9)%N then (backslash ++ "t")%string
  else if (c =? 8)%N then (backslash ++ "b")%string
  else if (c =? 12)%N then (backslash ++ "f")%string
  else if ((32 <=? c) && (c <=? 126))%N then chr c
  else if (c <? 65536)%N then (backslash ++ "u" ++ hex4 c)%string
  else
    let n := (c - 65536)%N in
    (backslash ++ "u" ++ hex4 (N.lor 55296 (N.land (N.shiftr n 10) 1023))
     ++ backslash ++ "u" ++ hex4 (N.lor 56320 (N.land n 1023)))%string.

(** A [str] as a JSON string ([ensure_ascii] is on). *)
Definition encode_str (s : string) : string :=
  (dquote ++ String.concat "" (map escape_code_point (code_points s))
   ++ dquote)%string.

(** The text of a [dict] key, when the encoder accepts the key. *)
Definition encode_key (k : PyKey) : Result string :=
  match k with
  | KStr s => Ret s
  | KBool true => Ret "true"
  | KBool false => Ret "false"
  | KNone => Ret "null"
  | KInt z => Ret (str_of_Z z)
  | KObj _ c _ =>
      Raise (mkExc TypeError
               ("keys must be str, int, float, bool or None, not " ++ c)%string)
  end.

Definition newline_indent (indent : option nat) (level : nat) : string :=
  match indent with
  | None => ""
  | Some n => (newline ++ str_repeat " " (n * level))%string
  end.

Definition item_separator (indent : option nat) (level : nat) : string :=
  match indent with
  | None => ", "
  | Some _ => ("," ++ newline_indent indent level)%string
  end.

(** The encoder meets the parts of a container in order and stops at
    the first error. *)
Section Traverse.

Context {A B : Type} (f : A -> Result B).

Fixpoint traverse (l : list A) : Result (list B) :=
  match l with
  | [] => Ret []
  | x :: rest =>
      match f x with
      | Raise e => Raise e
      | Ret y =>
          match traverse rest with
          | Raise e => Raise e
          | Ret ys => Ret (y :: ys)
          end
      end
  end.

End Traverse.

(** [json.dumps(v, indent=indent)], with [default=str] when
    [default_str] is set.  A container met again inside itself is a
    circular reference. *)
Fixpoint encode (indent : option nat) (default_str : bool) (level : nat)
  (v : PyVal) {struct v} : Result string :=
  match v with
  | VNone => Ret "null"
  | VBool true => Ret "true"
  | VBool false => Ret "false"
  | VInt z => Ret (str_of_Z z)
  | VStr s => Ret (encode_str s)
  | VObj _ c r =>
      if default_str then Ret (encode_str r)
      else Raise (mkExc TypeError
                    ("Object of type " ++ c ++ " is not JSON serializable")%string)
  | VBack _ => Raise (mkExc ValueError "Circular reference detected")
  | VList [] => Ret "[]"
  | VList items =>
      match traverse (encode indent default_str (S level)) items with
      | Raise e => Raise e
      | Ret parts =>
          Ret ("[" ++ newline_indent indent (S level)
               ++ join (item_separator indent (S level)) parts
               ++ newline_indent indent level ++ "]")%string
      end
  | VDict [] => Ret "{}"
  | VDict entries =>
      match
        traverse
          (fun kv : PyKey * PyVal =>
             match encode_key (fst kv) with
             | Raise e => Raise e
             | Ret sk =>
                 match encode indent default_str (S level) (snd kv) with
                 | Raise e => Raise e
                 | Ret sx => Ret (encode_str sk ++ ": " ++ sx)%string
                 end
             end)
          entries
      with
      | Raise e => Raise e
      | Ret parts =>
          Ret ("{" ++ newline_indent indent (S level)
               ++ join (item_separator indent (S level)) parts
               ++ newline_indent indent level ++ "}")%string
      end
  end.

Definition json_dumps (indent : option nat) (default_str : bool) (v : PyVal)
  : Result string :=
  encode indent default_str 0 v.

(** ** helpers.py *)

(** What the helpers change: the log, and the fetches issued to the
    remote service, in the order issued. *)
Record Env : Type := mkEnv {
  env_logs : list Log;
  env_fetched : list PyKey
}.

Definition log (lvl : Level) (text : string) (args : list (LogArg PyVal))
  : M Env unit :=
  modify (fun s => mkEnv (env_logs s ++ [mkLog lvl text args]) (env_fetched s)).

(** The outcome of a call that changes nothing here. *)
Definition lift {S A} (r : Result A) : M S A := fun s => (r, s).

Definition isinstance_TypeError (e : PyExc) : bool :=
  match exc_class e with TypeError => true | _ => false end.

(** [try: body  except <classes> as e: handler e] *)
Definition try_except_of {S A} (catches : PyExc -> bool) (body : M S A)
  (handler : PyExc -> M S A) : M S A :=
  fun s => match body s with
           | (Raise e, s') =>
               if catches e then handler e s' else (Raise e, s')
           | r => r
           end.

(** [format_response].  [str(result)] in the last branch is written out
    for each class of value that reaches it. *)
Definition format_response (result : PyVal) : M Env string :=
  let other (text : string) : M Env string :=
    log WARNING "Formatting unexpected type: {} - Value: {}"
        [AText (type_name result); AVal result] ;;;
    lift (json_dumps None false (VDict [(KStr "result", VStr text)])) in
  match result with
  | VList _ | VDict _ =>
      try_except_of isinstance_TypeError
        (lift (json_dumps (Some 2) true result))
        (fun e =>
           log ERROR "Failed to serialize response object: {} - Object: {}"
               [AExc e; AVal result] ;;;
           lift (json_dumps None false
                   (VDict [(KStr "error", VStr "Failed to serialize response");
                           (KStr "details", VStr (exc_msg e))])))
  | VNone => lift (json_dumps None false VNone)
  | VBool true => other "True"
  | VBool false => other "False"
  | VInt z => other (str_of_Z z)
  | VStr s => other s
  | VObj _ _ r => other r
  | VBack _ => other "[...]"
  end.

Section Helpers.

(** The module attribute [client.ticktick_client]: a client handle, or
    [None]. *)
Variable ticktick_client : option TickTickClient.

(** The order in which a [for] loop meets the elements of a [set] that
    was filled in the order given. *)
Variable set_order : list PyKey -> list PyKey.

(** [require_client(func)]: the wrapper it returns, awaited. *)
Definition require_client {Args : Type} (func : Args -> M Env string)
  : Args -> M Env string :=
  fun args =>
    log INFO "TickTick client: {}"
        [AText (match ticktick_client with
                | None => "None"
                | Some _ => "<ticktick.api.TickTickClient object>"
                end)] ;;;
    match ticktick_client with
    | None =>
        log ERROR "TickTick client accessed before initialization in tool function." [] ;;;
        format_response (VDict [(KStr "error", VStr "TickTick client not initialized.")])
    | Some _ => func args
    end.

(** [s.add(k)] on a [set] held in insertion order. *)
Definition set_add (k : PyKey) (s : list PyKey) : list PyKey :=
  if existsb (key_eqb k) s then s else s ++ [k].

(** [s.add(v)]: hashes [v] first. *)
Definition set_add_val (v : PyVal) (s : list PyKey) : Result (list PyKey) :=
  match as_key v with
  | Some k => Ret (set_add k s)
  | None => Raise (mkExc TypeError
                     ("unhashable type: '" ++ type_name v ++ "'")%string)
  end.

(** [{p.get('id') for p in projects_state if p.get('id')}] *)
Fixpoint ids_of_projects (projects_state : list (list (PyKey * PyVal)))
  (acc : list PyKey) : Result (list PyKey) :=
  match projects_state with
  | [] => Ret acc
  | p :: rest =>
      if truthy (dict_get (KStr "id") p)
      then match set_add_val (dict_get (KStr "id") p) acc with
           | Ret acc' => ids_of_projects rest acc'
           | Raise e => Raise e
           end
      else ids_of_projects rest acc
  end.

(** Lines 46 to 50: the project state, or an empty list when reading it
    fails. *)
Definition read_projects_state (c : TickTickClient)
  : M Env (list (list (PyKey * PyVal))) :=
  try_except (lift (state_get_projects c))
    (fun e =>
       log ERROR "Error accessing client state for projects: {}" [AExc e] ;;;
       ret []).

(** Lines 54 to 58: [project_ids] with the inbox identifier added. *)
Definition add_inbox_id (c : TickTickClient) (project_ids : list PyKey)
  : M Env (list PyKey) :=
  try_except
    (inbox <- lift (inbox_id c) ;;
     if truthy inbox
     then lift (set_add_val inbox project_ids)
     else ret project_ids)
    (fun e =>
       log ERROR "Error accessing client inbox_id: {}" [AExc e] ;;;
       ret project_ids).

(** Lines 45 to 58 of [_get_all_tasks_from_ticktick], for a client
    handle: the set of project identifiers to fetch from. *)
Definition collect_project_ids (c : TickTickClient) : M Env (list PyKey) :=
  projects_state <- read_projects_state c ;;
  project_ids <- lift (ids_of_projects projects_state []) ;;
  add_inbox_id c project_ids.

(** [client.ticktick_client.task.get_from_project(project_id)] *)
Definition fetch (c : TickTickClient) (project_id : PyKey) : M Env PyVal :=
  fun s => (get_from_project c project_id,
            mkEnv (env_logs s) (env_fetched s ++ [project_id])).

(** One turn of the loop at lines 61 to 73: [all_tasks] before, and
    after. *)
Definition fetch_into (c : TickTickClient) (all_tasks : list PyVal)
  (project_id : PyKey) : M Env (list PyVal) :=
  try_except
    (tasks_in_project <- fetch c project_id ;;
     if truthy tasks_in_project then
       match tasks_in_project with
       | VList items => ret (all_tasks ++ items)
       | VDict _ => ret (all_tasks ++ [tasks_in_project])
       | _ =>
           log WARNING
             "Unexpected data type received from get_from_project for {}: {}"
             [AVal (of_key project_id); AText (type_name tasks_in_project)] ;;;
           ret all_tasks
       end
     else ret all_tasks)
    (fun e =>
       log WARNING "Failed to get tasks for project {}: {}"
           [AVal (of_key project_id); AExc e] ;;;
       ret all_tasks).

Fixpoint fetch_all (c : TickTickClient) (project_ids : list PyKey)
  (all_tasks : list PyVal) : M Env (list PyVal) :=
  match project_ids with
  | [] => ret all_tasks
  | project_id :: rest =>
      all_tasks' <- fetch_into c all_tasks project_id ;;
      fetch_all c rest all_tasks'
  end.

(** [_get_all_tasks_from_ticktick] *)
Definition _get_all_tasks_from_ticktick : M Env (list PyVal) :=
  match ticktick_client with
  | None =>
      log ERROR "_get_all_tasks_from_ticktick called when client is not initialized." [] ;;;
      raise (mkExc ConnectionError "TickTick client not initialized.")
  | Some c =>
      project_ids <- collect_project_ids c ;;
      log DEBUG "Fetching uncompleted tasks from {} projects..."
          [ALen (List.length project_ids)] ;;;
      all_tasks <- fetch_all c (set_order project_ids) [] ;;
      log INFO "Found {} total uncompleted tasks." [ALen (List.length all_tasks)] ;;;
      ret all_tasks
  end.

End Helpers.

(** ** What the claims about helpers.py are stated with *)

(** What one fetch adds to the merged result, in the words of the
    specification: a sequence adds its elements, a single record adds
    itself, an empty or falsy result, any other shape and an error add
    nothing. *)
Definition contribution (outcome : Result PyVal) : list PyVal :=
  match outcome with
  | Ret (VList items) => items
  | Ret (VDict (entry :: entries)) => [VDict (entry :: entries)]
  | _ => []
  end.

(** What one fetch for [project_id] leaves in the log: a warning naming
    the identifier for an error and for a truthy result that is neither
    a list nor a dict. *)
Definition fetch_warnings (project_id : PyKey) (outcome : Result PyVal)
  : list Log :=
  match outcome with
  | Raise e =>
      [mkLog WARNING "Failed to get tasks for project {}: {}"
             [AVal (of_key project_id); AExc e]]
  | Ret v =>
      if truthy v then
        match v with
        | VList _ | VDict _ => []
        | _ => [mkLog WARNING
                  "Unexpected data type received from get_from_project for {}: {}"
                  [AVal (of_key project_id); AText (type_name v)]]
        end
      else []
  end.

(** An outcome that is a value, or an exception [except Exception]
    catches. *)
Definition caught {A} (outcome : Result A) : bool :=
  match outcome with
  | Ret _ => true
  | Raise e => isinstance_Exception e
  end.


(** [k in s] and "no two elements of [s] are equal", with Python's
    [==]. *)
Definition mem (k : PyKey) (s : list PyKey) : bool := existsb (key_eqb k) s.

Fixpoint distinct (s : list PyKey) : bool :=
  match s with
  | [] => true
  | k :: rest => negb (mem k rest) && distinct rest
  end.

(** The project state that is read, the truthy identifiers listed in it
    and the default identifier, each empty when its access fails. *)
Definition snapshot_of (c : TickTickClient) : list (list (PyKey * PyVal)) :=
  match state_get_projects c with
  | Ret projects => projects
  | Raise _ => []
  end.

Definition listed_ids (projects : list (list (PyKey * PyVal))) : list PyVal :=
  filter truthy (map (dict_get (KStr "id")) projects).


Definition keys_of (vs : list PyVal) : list PyKey :=
  flat_map (fun v => match as_key v with Some k => [k] | None => [] end) vs.

Definition hashable (v : PyVal) : bool :=
  match as_key v with Some _ => true | None => false end.


(** The payload of the client-check guard:
    [json.dumps({"error": "TickTick client not initialized."}, indent=2)]. *)
Definition not_initialized_payload : string :=
  ("{" ++ newline ++ "  " ++ dquote ++ "error" ++ dquote ++ ": " ++ dquote
   ++ "TickTick client not initialized." ++ dquote ++ newline ++ "}")%string.

(** [json.dumps({"result": text})] *)
Definition result_payload (text : string) : string :=
  ("{" ++ dquote ++ "result" ++ dquote ++ ": " ++ encode_str text ++ "}")%string.

(** [json.dumps({"error": "Failed to serialize response", "details": text})] *)
Definition serialize_error_payload (text : string) : string :=
  ("{" ++ dquote ++ "error" ++ dquote ++ ": " ++ dquote
   ++ "Failed to serialize response" ++ dquote ++ ", " ++ dquote ++ "details"
   ++ dquote ++ ": " ++ encode_str text ++ "}")%string.

(** ** What the further properties of helpers.py are stated with *)


(** Every byte of [s] is an ASCII character. *)
Fixpoint ascii_only (s : string) : bool :=
  match s with
  | EmptyString => true
  | String a rest => (N_of_ascii a <? 128)%N && ascii_only rest
  end.


(** ** helpers.py: the due date parser *)

(** [datetime.date]: a date of the proleptic Gregorian calendar. *)
Record date : Type := mkDate { year : N; month : N; day : N }.

Definition is_leap (y : N) : bool :=
  ((y mod 4 =? 0) && (negb (y mod 100 =? 0) || (y mod 400 =? 0)))%N.

Definition days_in_month (y m : N) : N :=
  (if (m =? 2) then (if is_leap y then 29 else 28)
   else if (m =? 4) || (m =? 6) || (m =? 9) || (m =? 11) then 30
   else 31)%N.

(** [datetime.date(y, m, d)], which checks the year, then the month,
    then the day. *)
Definition new_date (y m d : N) : Result date :=
  if negb ((1 <=? y) && (y <=? 9999))%N then
    Raise (mkExc ValueError
             ("year " ++ str_of_Z (Z.of_N y) ++ " is out of range")%string)
  else if negb ((1 <=? m) && (m <=? 12))%N then
    Raise (mkExc ValueError "month must be in 1..12")
  else if negb ((1 <=? d) && (d <=? days_in_month y m))%N then
    Raise (mkExc ValueError "day is out of range for month")
  else Ret (mkDate y m d).

(** The UTF-8 bytes of a code point. *)
Definition utf8 (c : N) : string :=
  (if c <? 128 then chr c
   else if c <? 2048 then chr (192 + c / 64) ++ chr (128 + c mod 64)
   else if c <? 65536 then
     chr (224 + c / 4096) ++ chr (128 + (c / 64) mod 64) ++ chr (128 + c mod 64)
   else
     chr (240 + c / 262144) ++ chr (128 + (c / 4096) mod 64)
     ++ chr (128 + (c / 64) mod 64) ++ chr (128 + c mod 64))%N%string.

(** The [str] with the code points given. *)
Definition str_of_code_points (cs : list N) : string :=
  String.concat "" (map utf8 cs).

(** A regular expression as [re.match] runs it: the matches of a prefix
    of the input, in the order the backtracking search tries them; each
    comes with the value of what it matched and the input left. *)
Definition Matcher (A : Type) : Type := list N -> list (A * list N).

(** One given character. *)
Definition m_lit (c : N) : Matcher unit :=
  fun s => match s with
           | x :: rest => if (x =? c)%N then [(tt, rest)] else []
           | [] => []
           end.

(** A character class [[lo-hi]] of ASCII digits; the value is the
    digit's. *)
Definition m_range (lo hi : N) : Matcher N :=
  fun s => match s with
           | x :: rest =>
               if ((lo <=? x) && (x <=? hi))%N then [((x - 48)%N, rest)] else []
           | [] => []
           end.

(** [p] then [q], the two values combined by [f]. *)
Definition m_seq {A B C} (f : A -> B -> C) (p : Matcher A) (q : Matcher B)
  : Matcher C :=
  fun s =>
    flat_map (fun ar => map (fun br => (f (fst ar) (fst br), snd br))
                            (q (snd ar)))
             (p s).

(** [p|q]: the matches of [p] first. *)
Definition m_alt {A} (p q : Matcher A) : Matcher A :=
  fun s => p s ++ q s.

Definition tens (a b : N) : N := (10 * a + b)%N.

Section DueDate.

(** The digit value of the code points that are decimal digits (Unicode
    category Nd): the characters [\d] matches and [int()] reads. *)
Variable decimal_digit : N -> option N.

(** [repr()] of a [str]. *)
Variable str_repr : string -> string.

(** [\d] *)
Definition m_digit : Matcher N :=
  fun s => match s with
           | x :: rest => match decimal_digit x with
                          | Some v => [(v, rest)]
                          | None => []
                          end
           | [] => []
           end.

(** [%Y]: [\d\d\d\d] *)
Definition re_Y : Matcher N :=
  m_seq tens (m_seq tens (m_seq tens m_digit m_digit) m_digit) m_digit.

(** [%m]: [1[0-2]|0[1-9]|[1-9]] *)
Definition re_m : Matcher N :=
  m_alt (m_seq tens (m_range 49 49) (m_range 48 50))
    (m_alt (m_seq tens (m_range 48 48) (m_range 49 57))
       (m_range 49 57)).

(** [%d]: [3[0-1]|[1-2]\d|0[1-9]|[1-9]| [1-9]] *)
Definition re_d : Matcher N :=
  m_alt (m_seq tens (m_range 51 51) (m_range 48 49))
    (m_alt (m_seq tens (m_range 49 50) m_digit)
       (m_alt (m_seq tens (m_range 48 48) (m_range 49 57))
          (m_alt (m_range 49 57)
             (m_seq (fun _ v => v) (m_lit 32) (m_range 49 57))))).

(** The expression [strptime] compiles for the format ["%Y-%m-%d"]. *)
Definition re_Y_m_d : Matcher (N * N * N) :=
  m_seq (fun ym d => (fst ym, snd ym, d))
    (m_seq (fun ym _ => ym)
       (m_seq (fun y m => (y, m))
          (m_seq (fun y _ => y) re_Y (m_lit 45))
          re_m)
       (m_lit 45))
    re_d.

(** [datetime.datetime.strptime(data, "%Y-%m-%d").date()]: the first
    match of the expression at the start of [data] must reach its end,
    and the fields must make a date. *)
Definition strptime_date (data : list N) : Result date :=
  match re_Y_m_d data with
  | [] =>
      Raise (mkExc ValueError
               ("time data " ++ str_repr (str_of_code_points data)
                ++ " does not match format '%Y-%m-%d'")%string)
  | (ymd, []) :: _ => new_date (fst (fst ymd)) (snd (fst ymd)) (snd ymd)
  | (_, rest) :: _ =>
      Raise (mkExc ValueError
               ("unconverted data remains: " ++ str_of_code_points rest)%string)
  end.

Definition isinstance_ValueError_or_TypeError (e : PyExc) : bool :=
  match exc_class e with
  | ValueError | TypeError => true
  | _ => false
  end.

(** [_parse_due_date].  [len] and the slice count characters. *)
Definition _parse_due_date (due_date_str : PyVal) : M Env (option date) :=
  match due_date_str with
  | VStr s =>
      if negb (str_truthy s) then ret None
      else
        try_except_of isinstance_ValueError_or_TypeError
          (if (10 <=? List.length (code_points s))%nat then
             date_part <- ret (firstn 10 (code_points s)) ;;
             d <- lift (strptime_date date_part) ;;
             ret (Some d)
           else
             log WARNING "dueDate string too short to parse: {}"
                 [AVal due_date_str] ;;;
             ret None)
          (fun e =>
             log WARNING "Could not parse dueDate string '{}': {}"
                 [AVal due_date_str; AExc e] ;;;
             ret None)
  | _ => ret None
  end.

(** The texts the three fields accept when the whole of a text of ten
    characters is to match: the year of four decimal digits, the month
    of two ASCII digits 01 to 12, and the day as 30 or 31, as 1 or 2
    with a decimal digit, as 01 to 09, or as a space with 1 to 9. *)
Definition four_digit_year (a b c d : N) : option N :=
  match decimal_digit a, decimal_digit b, decimal_digit c, decimal_digit d with
  | Some va, Some vb, Some vc, Some vd => Some (tens (tens (tens va vb) vc) vd)
  | _, _, _, _ => None
  end.

Definition two_digit_month (a b : N) : option N :=
  (if (a =? 49) && ((48 <=? b) && (b <=? 50)) then Some (tens 1 (b - 48))
   else if (a =? 48) && ((49 <=? b) && (b <=? 57)) then Some (tens 0 (b - 48))
   else None)%N.

Definition two_char_day (a b : N) : option N :=
  (if (a =? 51) && ((48 <=? b) && (b <=? 49)) then Some (tens 3 (b - 48))
   else if (49 <=? a) && (a <=? 50) then
     match decimal_digit b with
     | Some v => Some (tens (a - 48) v)
     | None => None
     end
   else if (a =? 48) && ((49 <=? b) && (b <=? 57)) then Some (tens 0 (b - 48))
   else if (a =? 32) && ((49 <=? b) && (b <=? 57)) then Some (b - 48)
   else None)%N.

End DueDate.

(** [date.isoformat()]: YYYY-MM-DD. *)
Definition digit_char (n : N) : string := chr (48 + n mod 10).

Definition isoformat (d : date) : string :=
  (digit_char (year d / 1000) ++ digit_char (year d / 100)
   ++ digit_char (year d / 10) ++ digit_char (year d) ++ "-"
   ++ digit_char (month d / 10) ++ digit_char (month d) ++ "-"
   ++ digit_char (day d / 10) ++ digit_char (day d))%N%string.

(** The dates [datetime.date] holds. *)
Definition valid_date (d : date) : bool :=
  ((1 <=? year d) && (year d <=? 9999) && (1 <=? month d) && (month d <=? 12)
   && (1 <=? day d) && (day d <=? days_in_month (year d) (month d)))%N.

(** A table of decimal digits reads the ten ASCII digits as themselves. *)
Definition reads_ascii_digits (decimal_digit : N -> option N) : Prop :=
  forall v : N, (v < 10)%N -> decimal_digit (48 + v)%N = Some v.

Module DueDateFixture.

(** The ASCII part of the digit table, and [repr] as it is for text
    without quotes, backslashes and unprintable characters. *)
Definition ascii_digit (c : N) : option N :=
  if ((48 <=? c) && (c <=? 57))%N then Some (c - 48)%N else None.

Definition plain_repr (s : string) : string := ("'" ++ s ++ "'")%string.

Definition parse (s : string) : Result (option date) * Env :=
  _parse_due_date ascii_digit plain_repr (VStr s) (mkEnv [] []).

End DueDateFixture.

(** ** Stand-ins for the library, for the examples *)

Module Fixture.

(** A client whose project state lists P1 and P2, whose inbox is INBOX,
    and whose fetches give: for P1 an error, for P2 nothing, for INBOX a
    list of two task records. *)
Definition task1 : PyVal :=
  VDict [(KStr "id", VStr "t1"); (KStr "title", VStr "Buy milk")].
Definition task2 : PyVal :=
  VDict [(KStr "id", VStr "t2"); (KStr "title", VStr "Call Bob");
         (KStr "priority", VInt 3)].

Definition project (id name : string) : list (PyKey * PyVal) :=
  [(KStr "id", VStr id); (KStr "name", VStr name)].

Definition demo_fetch (project_id : PyKey) : Result PyVal :=
  match project_id with
  | KStr "P1" => Raise (mkExc (OtherException "HTTPError") "500 Server Error")
  | KStr "P2" => Ret (VList [])
  | KStr "INBOX" => Ret (VList [task1; task2])
  | _ => Ret VNone
  end.

Definition demo_client : TickTickClient :=
  mkClient (Ret [project "P1" "Work"; project "P2" "Home"])
           (Ret (VStr "INBOX"))
           demo_fetch.

(** The same with the inbox listed among the projects as well. *)
Definition overlap_client : TickTickClient :=
  mkClient (Ret [project "P1" "Work"; project "P2" "Home"])
           (Ret (VStr "P1"))
           demo_fetch.

(** A client whose project state cannot be read. *)
Definition stateless_client : TickTickClient :=
  mkClient (Raise (mkExc AttributeError
                     "'TickTickClient' object has no attribute 'state'"))
           (Ret (VStr "INBOX"))
           demo_fetch.

(** A client whose project state has an entry without identifier and one
    with an empty identifier. *)
Definition sparse_client : TickTickClient :=
  mkClient (Ret [[(KStr "name", VStr "Draft")]; project "" "Blank";
                 project "P2" "Home"])
           (Ret (VStr ""))
           demo_fetch.

Definition empty_env : Env := mkEnv [] [].

(** The library's negotiator, reduced to what matters here: the outside
    world is whether a token is cached; without one the constructor asks
    for the redirect URL through [_get_user_input] and caches the token. *)
Definition lib_OAuth2_init (get_user_input : string -> M (Sys bool) string)
  (args : OAuth2Args) : M (Sys bool) string :=
  fun s =>
    if ext s then ret "cached-token" s
    else
      (url <- get_user_input "Enter the URL you were redirected to: " ;;
       modify (fun s' => mkSys (stdin_isatty s') (stdin_pending s')
                               (stdin_reads s') (stdout s') true) ;;;
       ret url) s.

(** The library's client constructor: signs in, and fails on a wrong
    password. *)
Definition lib_TickTickClient_init (username password : option string)
  (auth : string) : M (Sys bool) TickTickClient :=
  match password with
  | Some "hunter2" => ret demo_client
  | _ => raise (mkExc (OtherException "RuntimeError") "Could Not Complete Request")
  end.

Definition cfg : Config :=
  mkConfig (Some "id") (Some "secret") (Some "http://localhost/cb")
           (Some "me@example.org") (Some "hunter2") "/home/me".

Definition cfg_no_secret : Config :=
  mkConfig (Some "id") None (Some "http://localhost/cb")
           (Some "me@example.org") (Some "hunter2") "/home/me".

(** Standard input is a pipe carrying protocol messages; nothing cached. *)
Definition piped : Sys bool := mkSys false [Line "{}"] 0 [] false.

(** A terminal at which the user answers the prompt. *)
Definition terminal : Sys bool :=
  mkSys true [Line "http://localhost/cb?code=abc"] 0 [] false.

(** A terminal at which the user presses Ctrl-C at the prompt. *)
Definition terminal_ctrl_c : Sys bool := mkSys true [Interrupt] 0 [] false.

End Fixture.

(** Further stand-ins: clients with an odd project state, an odd inbox
    identifier, and a fetch that is interrupted. *)
Module MoreFixture.

Import Fixture.

(** The second project's identifier is a list. *)
Definition odd_client : TickTickClient :=
  mkClient (Ret [project "P1" "Work";
                 [(KStr "id", VList [VInt 7]); (KStr "name", VStr "Odd")]])
           (Ret (VStr "INBOX"))
           demo_fetch.

(** The inbox identifier is a list. *)
Definition odd_inbox_client : TickTickClient :=
  mkClient (Ret [project "P1" "Work"])
           (Ret (VList [VStr "INBOX"]))
           demo_fetch.

(** The fetch for P2 is interrupted from the keyboard. *)
Definition interrupted_client : TickTickClient :=
  mkClient (Ret [project "INBOX" "Inbox"; project "P2" "Home";
                 project "P3" "Later"])
           (Ret VNone)
           (fun k => match k with
                     | KStr "P2" => Raise (mkExc KeyboardInterrupt "")
                     | _ => demo_fetch k
                     end).

(** A record with text outside ASCII, in a key and in a value. *)
Definition accented : PyVal :=
  VDict [(KStr "título", VStr "café 🔧"); (KStr "done", VBool false)].

End MoreFixture.

(** Induction on values, with the hypothesis for every element of a
    container. *)
Section PyVal_induction.

Variable P : PyVal -> Prop.
Hypothesis HNone : P VNone.
Hypothesis HBool : forall b, P (VBool b).
Hypothesis HInt : forall z, P (VInt z).
Hypothesis HStr : forall s, P (VStr s).
Hypothesis HObj : forall o c r, P (VObj o c r).
Hypothesis HList : forall items, Forall P items -> P (VList items).
Hypothesis HDict :
  forall entries, Forall (fun kv => P (snd kv)) entries -> P (VDict entries).
Hypothesis HBack : forall n, P (VBack n).

Fixpoint PyVal_nested_ind (v : PyVal) : P v :=
  match v with
  | VNone => HNone
  | VBool b => HBool b
  | VInt z => HInt z
  | VStr s => HStr s
  | VObj o c r => HObj o c r
  | VList items =>
      HList ((fix each (l : list PyVal) : Forall P l :=
                match l with
                | [] => Forall_nil _
                | x :: rest => Forall_cons x (PyVal_nested_ind x) (each rest)
                end) items)
  | VDict entries =>
      HDict ((fix each (l : list (PyKey * PyVal))
                : Forall (fun kv => P (snd kv)) l :=
                match l with
                | [] => Forall_nil _
                | kv :: rest =>
                    Forall_cons kv (PyVal_nested_ind (snd kv)) (each rest)
                end) entries)
  | VBack n => HBack n
  end.

End PyVal_induction.

(** * Properties *)

(** ** The monad's combinators *)

Lemma try_finally_state {S A} (body : M S A) (f : S -> S) (s : S) :
  snd (try_finally body (modify f) s) = f (snd (body s)).
Proof.
  unfold try_finally, modify. destruct (body s) as [r s']. reflexivity.
Qed.

Lemma try_finally_result {S A} (body : M S A) (f : S -> S) (s : S) :
  fst (try_finally body (modify f) s) = fst (body s).
Proof.
  unfold try_finally, modify. destruct (body s) as [r s']. reflexivity.
Qed.



(** ** client.py *)

Section ClientFacts.

Variable Ext : Type.
Variable OAuth2 : Type.
Variable cfg : Config.
Variable OAuth2_init :
  (string -> M (Sys Ext) string) -> OAuth2Args -> M (Sys Ext) OAuth2.
Variable TickTickClient_init :
  option string -> option string -> OAuth2 -> M (Sys Ext) TickTickClient.

Local Abbreviation get_client' := (get_client cfg OAuth2_init TickTickClient_init).
Local Abbreviation init' := (__init__ cfg OAuth2_init TickTickClient_init).
Local Abbreviation setup_auth' := (setup_auth cfg OAuth2_init TickTickClient_init).
Local Abbreviation authenticate' := (authenticate cfg OAuth2_init TickTickClient_init).
Local Abbreviation get_client_times' :=
  (get_client_times cfg OAuth2_init TickTickClient_init).

(** Once initialization was attempted the accessor answers from the
    class attribute and touches nothing but the log. *)
Lemma get_client_initialized (p : Process Ext) :
  _initialized p = true ->
  get_client' p =
    (Ret (_instance p),
     match _instance p with
     | None => mkProcess (sys p) (logs p ++ [warning_unavailable]) (calls p)
                         None true
     | Some c => p
     end).
Proof.
  intros Hinit. unfold get_client, bind. rewrite Hinit. simpl.
  destruct p as [s l c i b]. simpl in *. subst b.
  destruct i; reflexivity.
Qed.

Lemma init_marks_attempted (p : Process Ext) :
  _initialized (snd (init' p)) = true.
Proof.
  unfold __init__. destruct (_initialized p) eqn:Hinit.
  - exact Hinit.
  - destruct (negb (credentials_present cfg)).
    + reflexivity.
    + unfold set_initialized. rewrite try_finally_state. reflexivity.
Qed.

Lemma get_client_marks_attempted (p : Process Ext) :
  _initialized (snd (get_client' p)) = true.
Proof.
  destruct (_initialized p) eqn:Hinit.
  - rewrite get_client_initialized by exact Hinit.
    simpl. destruct (_instance p); [exact Hinit | reflexivity].
  - unfold get_client, bind. rewrite Hinit. simpl.
    pose proof (init_marks_attempted p) as H.
    destruct (init' p) as [[[]|e] p1]; simpl in *.
    + destruct (_instance p1) eqn:Hi; simpl; exact H.
    + exact H.
Qed.

Ltac unfold_client :=
  cbv [get_client __init__ setup_auth authenticate bind try_finally
       try_except logging record_call set_instance set_initialized modify
       in_sys print ret raise MCPFriendlyOAuth2 new_TickTickClient].

Ltac split_oracles :=
  repeat match goal with
    | |- context [OAuth2_init ?g ?a ?s0] =>
        let E := fresh "Eauth" in
        destruct (OAuth2_init g a s0) as [[?auth | ?exc] ?s1] eqn:E; simpl
    | |- context [TickTickClient_init ?u ?w ?a ?s0] =>
        let E := fresh "Eclient" in
        destruct (TickTickClient_init u w a s0) as [[?cl | ?exc] ?s1] eqn:E; simpl
    | |- context [isinstance_Exception ?x] =>
        let E := fresh "Eexc" in
        destruct (isinstance_Exception x) eqn:E; simpl
    end.

(** A read of standard input is counted. *)
Lemma input_reads (prompt : string) (s : Sys Ext) :
  stdin_reads (snd (input prompt s)) = S (stdin_reads s).
Proof.
  unfold input. destruct (stdin_pending s) as [|[l|] rest]; reflexivity.
Qed.

(** C1: when standard input is not a terminal, [_get_user_input] raises a
    [RuntimeError] whose message names the setup command, and leaves the
    terminal as it was: nothing is read from standard input. *)
Theorem get_user_input_fails_without_terminal (prompt : string) (s : Sys Ext) :
  stdin_isatty s = false ->
  exists e,
    _get_user_input prompt s = (Raise e, s)
    /\ exc_class e = RuntimeError
    /\ contains "Run the setup command first in a separate terminal"
         (exc_msg e) = true
    /\ contains "ticktick-mcp-setup" (exc_msg e) = true
    /\ stdin_reads (snd (_get_user_input prompt s)) = stdin_reads s
    /\ stdin_pending (snd (_get_user_input prompt s)) = stdin_pending s.
Proof.
  intros Htty. unfold _get_user_input. rewrite Htty. simpl.
  eexists. split; [reflexivity|].
  split; [reflexivity|].
  split; [vm_compute; reflexivity|].
  split; [vm_compute; reflexivity|].
  split; reflexivity.
Qed.

Lemma credentials_absent (f : option string) :
  In f [CLIENT_ID cfg; CLIENT_SECRET cfg; REDIRECT_URI cfg; USERNAME cfg;
        PASSWORD cfg] ->
  f = None \/ f = Some "" ->
  credentials_present cfg = false.
Proof.
  intros Hin Hf.
  assert (Ht : truthy (of_opt f) = false) by (destruct Hf; subst f; reflexivity).
  unfold credentials_present. simpl.
  repeat (destruct Hin as [Hin | Hin]; [subst f; rewrite Ht;
    repeat rewrite andb_false_r; reflexivity |]).
  contradiction.
Qed.

(** C7: with any one of the five credential fields absent or empty, the
    first call of the accessor returns [None] without raising, logs the
    error, marks initialization as attempted, calls neither constructor
    and leaves the terminal and the outside world untouched. *)
Theorem get_client_without_credentials (s : Sys Ext) (f : option string) :
  In f [CLIENT_ID cfg; CLIENT_SECRET cfg; REDIRECT_URI cfg; USERNAME cfg;
        PASSWORD cfg] ->
  f = None \/ f = Some "" ->
  get_client' (start s) =
    (Ret None,
     mkProcess s [error_no_credentials; warning_unavailable] [] None true).
Proof.
  intros Hin Hf. pose proof (credentials_absent Hin Hf) as Hc.
  unfold_client. simpl. rewrite Hc. reflexivity.
Qed.

(** The first attempt calls each constructor at most once. *)
Lemma get_client_calls (p : Process Ext) :
  exists extra,
    calls (snd (get_client' p)) = calls p ++ extra
    /\ List.length (filter is_CallOAuth2 extra) <= 1
    /\ List.length (filter is_CallTickTickClient extra) <= 1.
Proof.
  destruct (_initialized p) eqn:Hinit.
  - exists []. rewrite get_client_initialized by exact Hinit. simpl.
    rewrite app_nil_r. split; [destruct (_instance p); reflexivity | lia].
  - unfold_client. rewrite Hinit. simpl.
    destruct (credentials_present cfg); simpl.
    + split_oracles;
        first [ exists [CallOAuth2 (oauth2_args cfg);
                        CallTickTickClient (USERNAME cfg) (PASSWORD cfg)];
                rewrite <- app_assoc; simpl; split; [reflexivity | lia]
              | exists [CallOAuth2 (oauth2_args cfg)];
                simpl; split; [reflexivity | lia] ].
    + exists []. simpl. rewrite app_nil_r. split; [reflexivity | lia].
Qed.

(** Calls after the first attempt: the same answer each time, and
    nothing changes but the log. *)
Lemma get_client_times_initialized (n : nat) (p : Process Ext) :
  _initialized p = true ->
  fst (get_client_times' n p) = repeat (Ret (_instance p)) n
  /\ sys (snd (get_client_times' n p)) = sys p
  /\ calls (snd (get_client_times' n p)) = calls p
  /\ _instance (snd (get_client_times' n p)) = _instance p
  /\ _initialized (snd (get_client_times' n p)) = true.
Proof.
  revert p. induction n as [|n IH]; intros p Hinit.
  - simpl. repeat split; try reflexivity. exact Hinit.
  - simpl. rewrite get_client_initialized by exact Hinit.
    set (p1 := match _instance p with
               | None => mkProcess (sys p) (logs p ++ [warning_unavailable])
                                   (calls p) None true
               | Some _ => p
               end).
    assert (Hp1 : _initialized p1 = true /\ sys p1 = sys p
                  /\ calls p1 = calls p /\ _instance p1 = _instance p).
    { subst p1. destruct (_instance p) eqn:Hi; simpl; auto. }
    destruct Hp1 as (H1 & H2 & H3 & H4).
    specialize (IH p1 H1). destruct (get_client_times' n p1) as [rs p2].
    simpl in *. destruct IH as (I1 & I2 & I3 & I4 & I5).
    rewrite I1, I2, I3, I4, H2, H3, H4. auto.
Qed.

(** C2: of [N >= 1] calls of the accessor in a fresh process, only the
    first runs the initialization sequence: each constructor is called
    at most once over all the calls; every later call returns the stored
    result of the first attempt (the handle, or [None]), whether that
    attempt succeeded or failed; and the later calls leave the terminal,
    the outside world and the class attributes as the first call left
    them. *)
Theorem get_client_idempotent (s : Sys Ext) (n : nat) :
  let first := get_client' (start s) in
  let all := get_client_times' (S n) (start s) in
  fst all = fst first :: repeat (Ret (_instance (snd first))) n
  /\ (returns (fst first) = true -> fst first = Ret (_instance (snd first)))
  /\ sys (snd all) = sys (snd first)
  /\ calls (snd all) = calls (snd first)
  /\ _instance (snd all) = _instance (snd first)
  /\ _initialized (snd all) = true
  /\ List.length (filter is_CallOAuth2 (calls (snd all))) <= 1
  /\ List.length (filter is_CallTickTickClient (calls (snd all))) <= 1.
Proof.
  intros first all. subst first all. simpl.
  pose proof (get_client_marks_attempted (start s)) as Hinit.
  pose proof (get_client_calls (start s)) as (extra & Hcalls & Ho & Hc).
  assert (Hret : returns (fst (get_client' (start s))) = true ->
                 fst (get_client' (start s))
                 = Ret (_instance (snd (get_client' (start s))))).
  { unfold get_client, bind. simpl.
    destruct (init' (start s)) as [[[]|e] p1]; simpl.
    - destruct (_instance p1); simpl; reflexivity.
    - discriminate. }
  destruct (get_client' (start s)) as [r p1]. simpl in *.
  pose proof (get_client_times_initialized n p1 Hinit) as (T1 & T2 & T3 & T4 & T5).
  destruct (get_client_times' n p1) as [rs p2]. simpl in *.
  rewrite T1, T2, T3, T4, Hcalls.
  repeat split; auto.
Qed.

(** C6, as the code has it: an exception of the initialization sequence
    that is an instance of [Exception] is caught and logged; the
    accessor returns [None], the session is left without handle and
    marked as attempted. *)
Theorem get_client_catches_errors (p : Process Ext) (e : PyExc) (s' : Sys Ext) :
  _initialized p = false ->
  credentials_present cfg = true ->
  authenticate' (sys p) = (Raise e, s') ->
  isinstance_Exception e = true ->
  exists p',
    get_client' p = (Ret None, p')
    /\ _instance p' = None
    /\ _initialized p' = true
    /\ sys p' = s'
    /\ In (error_initializing e) (logs p').
Proof.
  intros Hinit Hcred Hauth Hexc. revert Hauth. unfold_client.
  rewrite Hinit, Hcred. simpl.
  destruct (OAuth2_init (_get_user_input (Ext:=Ext)) (oauth2_args cfg) (sys p))
    as [[auth | e1] s1]; simpl.
  - intros Hclient. rewrite Hclient. simpl. rewrite Hexc. simpl.
    eexists. split; [reflexivity|]. simpl. repeat split.
    rewrite !in_app_iff. simpl. auto 10.
  - intros Heq. inversion Heq; subst e1 s1. rewrite Hexc. simpl.
    eexists. split; [reflexivity|]. simpl. repeat split.
    rewrite !in_app_iff. simpl. auto 10.
Qed.

(** An exception of the sequence that is not an instance of [Exception]
    leaves the accessor; the session is all the same marked as attempted
    and keeps no handle. *)
Lemma get_client_lets_interrupts_through (p : Process Ext) (e : PyExc)
  (s' : Sys Ext) :
  _initialized p = false ->
  credentials_present cfg = true ->
  authenticate' (sys p) = (Raise e, s') ->
  isinstance_Exception e = false ->
  exists p',
    get_client' p = (Raise e, p')
    /\ _instance p' = _instance p
    /\ _initialized p' = true
    /\ sys p' = s'.
Proof.
  intros Hinit Hcred Hauth Hexc. revert Hauth. unfold_client.
  rewrite Hinit, Hcred. simpl.
  destruct (OAuth2_init (_get_user_input (Ext:=Ext)) (oauth2_args cfg) (sys p))
    as [[auth | e1] s1]; simpl.
  - intros Hclient. rewrite Hclient. simpl. rewrite Hexc. simpl.
    eexists. split; [reflexivity|]. simpl. repeat split.
  - intros Heq. inversion Heq; subst e1 s1. rewrite Hexc. simpl.
    eexists. split; [reflexivity|]. simpl. repeat split.
Qed.


End ClientFacts.

(** ** helpers.py: the guard and the aggregator *)

Section HelperFacts.

Variable set_order : list PyKey -> list PyKey.

(** C3, as the code has it: while the session is unavailable, the
    wrapper of [require_client] returns the JSON error object without
    calling the wrapped function, whatever that function is; the
    aggregator raises [ConnectionError] with the message "TickTick
    client not initialized." and issues no fetch. *)
Theorem unavailable_session_guard (Args : Type) (func : Args -> M Env string)
  (args : Args) (s : Env) :
  require_client None func args s =
    (Ret not_initialized_payload,
     mkEnv (env_logs s
            ++ [mkLog INFO "TickTick client: {}" [AText "None"];
                mkLog ERROR
                  "TickTick client accessed before initialization in tool function."
                  []])
           (env_fetched s))
  /\ _get_all_tasks_from_ticktick None set_order s =
       (Raise (mkExc ConnectionError "TickTick client not initialized."),
        mkEnv (env_logs s
               ++ [mkLog ERROR
                     "_get_all_tasks_from_ticktick called when client is not initialized."
                     []])
              (env_fetched s)).
Proof.
  split.
  - unfold require_client, bind, log, modify, format_response, try_except_of,
      lift. simpl. rewrite <- app_assoc. reflexivity.
  - reflexivity.
Qed.

Lemma fetch_into_caught (c : TickTickClient) (all_tasks : list PyVal)
  (project_id : PyKey) (s : Env) :
  caught (get_from_project c project_id) = true ->
  fetch_into c all_tasks project_id s =
    (Ret (all_tasks ++ contribution (get_from_project c project_id)),
     mkEnv (env_logs s
            ++ fetch_warnings project_id (get_from_project c project_id))
           (env_fetched s ++ [project_id])).
Proof.
  unfold fetch_into, fetch, try_except, bind, log, modify, ret, caught.
  destruct (get_from_project c project_id) as [v | e]; simpl.
  - intros _.
    destruct v as [ | [] | z | str | o cl r | [|x items] | [|kv entries] | n];
      simpl; rewrite ?app_nil_r; try reflexivity.
    + destruct (z =? 0)%Z; simpl; rewrite ?app_nil_r; reflexivity.
    + destruct str; simpl; rewrite ?app_nil_r; reflexivity.
  - intros He. rewrite He. rewrite app_nil_r. reflexivity.
Qed.

Lemma fetch_all_caught (c : TickTickClient) (project_ids : list PyKey) :
  forall (all_tasks : list PyVal) (s : Env),
    (forall k, In k project_ids -> caught (get_from_project c k) = true) ->
    fetch_all c project_ids all_tasks s =
      (Ret (all_tasks
            ++ flat_map (fun k => contribution (get_from_project c k))
                 project_ids),
       mkEnv (env_logs s
              ++ flat_map (fun k => fetch_warnings k (get_from_project c k))
                   project_ids)
             (env_fetched s ++ project_ids)).
Proof.
  induction project_ids as [|k rest IH]; intros all_tasks s Hcaught.
  - simpl. unfold ret. rewrite !app_nil_r. destruct s; reflexivity.
  - simpl. unfold bind.
    rewrite fetch_into_caught by (apply Hcaught; left; reflexivity).
    rewrite IH by (intros k' Hk'; apply Hcaught; right; exact Hk').
    simpl. rewrite <- !app_assoc. reflexivity.
Qed.

Lemma aggregator_run (c : TickTickClient) (s s1 : Env) (ids : list PyKey) :
  collect_project_ids c s = (Ret ids, s1) ->
  (forall k, In k (set_order ids) -> caught (get_from_project c k) = true) ->
  _get_all_tasks_from_ticktick (Some c) set_order s =
    (Ret (flat_map (fun k => contribution (get_from_project c k))
            (set_order ids)),
     mkEnv ((env_logs s1
             ++ [mkLog DEBUG "Fetching uncompleted tasks from {} projects..."
                       [ALen (List.length ids)]]
             ++ flat_map (fun k => fetch_warnings k (get_from_project c k))
                  (set_order ids))
            ++ [mkLog INFO "Found {} total uncompleted tasks."
                      [ALen (List.length
                               (flat_map
                                  (fun k => contribution (get_from_project c k))
                                  (set_order ids)))]])
           (env_fetched s1 ++ set_order ids)).
Proof.
  intros Hids Hcaught. unfold _get_all_tasks_from_ticktick, bind.
  rewrite Hids. unfold log at 1. unfold modify.
  rewrite fetch_all_caught by exact Hcaught. simpl.
  unfold ret. rewrite <- !app_assoc. reflexivity.
Qed.

(** C4: for the identifier set [ids] that was collected and any
    outcomes of the fetches (values of any shape, or errors), the
    aggregator returns the concatenation, in iteration order, of what
    each fetch contributes: the elements of a list, a single record as
    one item, and nothing for a falsy result, another shape or an error.
    Every identifier is fetched, failures or not, and each error or
    other shape is logged with its identifier. *)
Theorem aggregator_concatenates (c : TickTickClient) (s s1 : Env)
  (ids : list PyKey) :
  collect_project_ids c s = (Ret ids, s1) ->
  (forall k, In k (set_order ids) -> caught (get_from_project c k) = true) ->
  exists s',
    _get_all_tasks_from_ticktick (Some c) set_order s =
      (Ret (flat_map (fun k => contribution (get_from_project c k))
              (set_order ids)), s')
    /\ env_fetched s' = env_fetched s1 ++ set_order ids
    /\ exists debug info,
        env_logs s' =
          env_logs s1 ++ [debug]
          ++ flat_map (fun k => fetch_warnings k (get_from_project c k))
               (set_order ids)
          ++ [info].
Proof.
  intros Hids Hcaught. rewrite (@aggregator_run c s s1 ids Hids Hcaught).
  eexists. split; [reflexivity|]. simpl. split; [reflexivity|].
  eexists; eexists. rewrite <- !app_assoc. reflexivity.
Qed.

(** *** Python equality on identifiers *)

Lemma key_eqb_refl (k : PyKey) : key_eqb k k = true.
Proof.
  destruct k as [ | [] | z | str | o cl r]; simpl; try reflexivity.
  - apply Z.eqb_refl.
  - apply String.eqb_refl.
  - apply Nat.eqb_refl.
Qed.

Lemma key_eqb_sym (a b : PyKey) : key_eqb a b = key_eqb b a.
Proof.
  destruct a as [ | [] | x | x | x ? ?], b as [ | [] | y | y | y ? ?];
    cbv [key_eqb Z_of_bool Bool.eqb];
    first [ reflexivity | apply Z.eqb_sym | apply String.eqb_sym
          | apply Nat.eqb_sym ].
Qed.

Lemma key_eqb_trans (a b c : PyKey) :
  key_eqb a b = true -> key_eqb b c = true -> key_eqb a c = true.
Proof.
  destruct a as [ | [] | x | x | x ? ?], b as [ | [] | y | y | y ? ?],
    c as [ | [] | z | z | z ? ?];
    cbv [key_eqb Z_of_bool Bool.eqb]; try discriminate; try reflexivity;
    rewrite ?Z.eqb_eq, ?String.eqb_eq, ?Nat.eqb_eq;
    intros; subst; try reflexivity; try congruence; try lia.
Qed.

Lemma mem_equal (a b : PyKey) (s : list PyKey) :
  key_eqb a b = true -> mem a s = mem b s.
Proof.
  intros Hab. unfold mem. induction s as [|x s IH]; simpl; [reflexivity|].
  rewrite IH. f_equal.
  destruct (key_eqb a x) eqn:Hax, (key_eqb b x) eqn:Hbx; try reflexivity.
  - rewrite key_eqb_sym in Hab.
    rewrite (key_eqb_trans _ _ _ Hab Hax) in Hbx. discriminate.
  - rewrite (key_eqb_trans _ _ _ Hab Hbx) in Hax. discriminate.
Qed.

Lemma mem_app (k : PyKey) (s t : list PyKey) :
  mem k (s ++ t) = mem k s || mem k t.
Proof. unfold mem. apply existsb_app. Qed.

Lemma mem_set_add (k k' : PyKey) (s : list PyKey) :
  mem k (set_add k' s) = mem k s || key_eqb k k'.
Proof.
  unfold set_add. destruct (existsb (key_eqb k') s) eqn:Hin.
  - destruct (key_eqb k k') eqn:Hk.
    + rewrite (@mem_equal k k' s Hk). unfold mem. rewrite Hin. reflexivity.
    + rewrite orb_false_r. reflexivity.
  - rewrite mem_app. simpl. rewrite orb_false_r. reflexivity.
Qed.

Lemma distinct_snoc (k : PyKey) (s : list PyKey) :
  distinct (s ++ [k]) = distinct s && negb (mem k s).
Proof.
  induction s as [|x s IH]; simpl.
  - reflexivity.
  - rewrite IH, mem_app. simpl. rewrite orb_false_r.
    rewrite (key_eqb_sym x k).
    destruct (mem x s), (key_eqb k x), (distinct s), (mem k s); reflexivity.
Qed.

Lemma distinct_set_add (k : PyKey) (s : list PyKey) :
  distinct s = true -> distinct (set_add k s) = true.
Proof.
  intros Hs. unfold set_add. destruct (existsb (key_eqb k) s) eqn:Hin.
  - exact Hs.
  - rewrite distinct_snoc, Hs. unfold mem. rewrite Hin. reflexivity.
Qed.

Lemma of_key_as_key (v : PyVal) (k : PyKey) : as_key v = Some k -> of_key k = v.
Proof.
  destruct v; simpl; intros H; inversion H; reflexivity.
Qed.

(** *** The identifier set *)

Lemma ids_of_projects_union (projects : list (list (PyKey * PyVal))) :
  forall acc : list PyKey,
    forallb hashable (listed_ids projects) = true ->
    distinct acc = true ->
    exists acc',
      ids_of_projects projects acc = Ret acc'
      /\ distinct acc' = true
      /\ forall k, mem k acc' = mem k acc || mem k (keys_of (listed_ids projects)).
Proof.
  induction projects as [|p rest IH]; intros acc Hhash Hacc.
  - exists acc. simpl. split; [reflexivity|]. split; [exact Hacc|].
    intros k. rewrite orb_false_r. reflexivity.
  - unfold listed_ids in *. simpl in *.
    destruct (truthy (dict_get (KStr "id") p)) eqn:Ht.
    + simpl in Hhash. apply andb_true_iff in Hhash. destruct Hhash as [Hh Hrest].
      unfold set_add_val, hashable in *.
      destruct (as_key (dict_get (KStr "id") p)) as [k0|] eqn:Hk; [|discriminate].
      destruct (IH (set_add k0 acc) Hrest (@distinct_set_add k0 acc Hacc))
        as (acc' & Hrun & Hd & Hmem).
      exists acc'. split; [exact Hrun|]. split; [exact Hd|].
      intros k. rewrite Hmem, mem_set_add. unfold keys_of. simpl. rewrite Hk.
      simpl. rewrite orb_assoc. reflexivity.
    + apply IH; assumption.
Qed.

Lemma ids_of_projects_truthy (projects : list (list (PyKey * PyVal))) :
  forall acc acc' : list PyKey,
    Forall (fun k => truthy (of_key k) = true) acc ->
    ids_of_projects projects acc = Ret acc' ->
    Forall (fun k => truthy (of_key k) = true) acc'.
Proof.
  induction projects as [|p rest IH]; intros acc acc' Hacc Hrun; simpl in Hrun.
  - inversion Hrun; subst. exact Hacc.
  - destruct (truthy (dict_get (KStr "id") p)) eqn:Ht.
    + unfold set_add_val in Hrun.
      destruct (as_key (dict_get (KStr "id") p)) as [k0|] eqn:Hk; [|discriminate].
      apply (IH (set_add k0 acc)); [|exact Hrun].
      unfold set_add. destruct (existsb (key_eqb k0) acc); [exact Hacc|].
      apply Forall_app. split; [exact Hacc|].
      constructor; [|constructor]. rewrite (@of_key_as_key _ _ Hk). exact Ht.
    + apply (IH acc); assumption.
Qed.


Lemma collect_fetches_nothing (c : TickTickClient) (s : Env) :
  env_fetched (snd (collect_project_ids c s)) = env_fetched s.
Proof.
  unfold collect_project_ids, read_projects_state, add_inbox_id, bind,
    try_except, lift, log, modify, ret.
  destruct (state_get_projects c) as [projects | e1]; simpl.
  - destruct (ids_of_projects projects []) as [acc | e]; simpl; [|reflexivity].
    destruct (inbox_id c) as [v | e2]; simpl.
    + destruct (truthy v); simpl; [|reflexivity].
      destruct (set_add_val v acc) as [acc' | e3]; simpl; [reflexivity|].
      destruct (isinstance_Exception e3); reflexivity.
    + destruct (isinstance_Exception e2); reflexivity.
  - destruct (isinstance_Exception e1); simpl; [|reflexivity].
    destruct (inbox_id c) as [v | e2]; simpl.
    + destruct (truthy v); simpl; [|reflexivity].
      destruct (set_add_val v []) as [acc' | e3]; simpl; [reflexivity|].
      destruct (isinstance_Exception e3); reflexivity.
    + destruct (isinstance_Exception e2); reflexivity.
Qed.

Lemma add_inbox_truthy (c : TickTickClient) (acc r : list PyKey) (s0 s1 : Env) :
  Forall (fun k => truthy (of_key k) = true) acc ->
  add_inbox_id c acc s0 = (Ret r, s1) ->
  Forall (fun k => truthy (of_key k) = true) r.
Proof.
  intros Hacc.
  unfold add_inbox_id, bind, try_except, lift, log, modify, ret.
  destruct (inbox_id c) as [v | e2]; simpl.
  - destruct (truthy v) eqn:Hv; simpl.
    + unfold set_add_val, set_add.
      destruct (as_key v) as [k0|] eqn:Hk; simpl.
      * intros H. inversion H; subst.
        destruct (existsb (key_eqb k0) acc); [exact Hacc|].
        apply Forall_app. split; [exact Hacc|]. constructor; [|constructor].
        rewrite (@of_key_as_key _ _ Hk). exact Hv.
      * intros H. inversion H; subst. exact Hacc.
    + intros H. inversion H; subst. exact Hacc.
  - destruct (isinstance_Exception e2); intros H; inversion H; subst.
    exact Hacc.
Qed.

Lemma collect_truthy (c : TickTickClient) (s s1 : Env) (ids : list PyKey) :
  collect_project_ids c s = (Ret ids, s1) ->
  Forall (fun k => truthy (of_key k) = true) ids.
Proof.
  unfold collect_project_ids, read_projects_state, bind at 1 2, try_except at 1,
    lift, log, modify, ret.
  destruct (state_get_projects c) as [projects | e1]; simpl.
  - destruct (ids_of_projects projects []) as [acc | e] eqn:Hrun; simpl;
      [|discriminate].
    apply add_inbox_truthy.
    exact (@ids_of_projects_truthy projects [] acc (Forall_nil _) Hrun).
  - destruct (isinstance_Exception e1); simpl; [|discriminate].
    apply add_inbox_truthy. constructor.
Qed.

Lemma fetch_all_fetched (c : TickTickClient) (project_ids : list PyKey) :
  forall (all_tasks : list PyVal) (s : Env),
  exists new,
    env_fetched (snd (fetch_all c project_ids all_tasks s))
    = env_fetched s ++ new
    /\ incl new project_ids.
Proof.
  induction project_ids as [|k rest IH]; intros all_tasks s.
  - exists []. simpl. rewrite app_nil_r. split; [reflexivity|]. apply incl_refl.
  - simpl. unfold bind.
    assert (Hone : env_fetched (snd (fetch_into c all_tasks k s))
                   = env_fetched s ++ [k]).
    { unfold fetch_into, fetch, try_except, bind, log, modify, ret.
      destruct (get_from_project c k) as [v | e]; simpl.
      - destruct (truthy v); simpl; [|reflexivity].
        destruct v; reflexivity.
      - destruct (isinstance_Exception e); reflexivity. }
    destruct (fetch_into c all_tasks k s) as [[acc | e] s1]; simpl in *.
    + destruct (IH acc s1) as (new & Hnew & Hincl).
      exists (k :: new). rewrite Hnew, Hone, <- app_assoc. split; [reflexivity|].
      intros x [Hx | Hx]; [left; exact Hx | right; apply Hincl; exact Hx].
    + exists [k]. split; [exact Hone|].
      intros x [Hx | []]. left. exact Hx.
Qed.

(** C9: every identifier of the set that is collected is truthy, the
    entries of the project state without identifier or with a falsy one
    and a falsy default identifier being left out; and so is every
    identifier for which the aggregator issues a fetch. *)
Theorem fetched_ids_truthy (client : option TickTickClient) (s : Env) :
  (forall l k, In k (set_order l) -> In k l) ->
  (forall c ids s1,
      collect_project_ids c s = (Ret ids, s1) ->
      Forall (fun k => truthy (of_key k) = true) ids)
  /\ exists new,
       env_fetched (snd (_get_all_tasks_from_ticktick client set_order s))
       = env_fetched s ++ new
       /\ Forall (fun k => truthy (of_key k) = true) new.
Proof.
  intros Horder. split.
  - intros c ids s1. apply collect_truthy.
  - destruct client as [c|].
    + unfold _get_all_tasks_from_ticktick, bind.
      pose proof (collect_fetches_nothing c s) as Hsame.
      pose proof (@collect_truthy c s) as Htruthy.
      destruct (collect_project_ids c s) as [[ids | e] s1]; simpl in *.
      * destruct (fetch_all_fetched c (set_order ids) []
                    (mkEnv (env_logs s1
                            ++ [mkLog DEBUG
                                  "Fetching uncompleted tasks from {} projects..."
                                  [ALen (List.length ids)]])
                           (env_fetched s1)))
          as (new & Hnew & Hincl).
        exists new. split.
        -- simpl in Hnew.
           destruct (fetch_all c (set_order ids) [] _) as [[tasks | e] s2];
             simpl in *; rewrite Hnew, Hsame; reflexivity.
        -- specialize (Htruthy s1 ids eq_refl).
           rewrite Forall_forall in *. intros k Hk.
           apply Htruthy, Horder, Hincl, Hk.
      * exists []. rewrite app_nil_r. split; [exact Hsame | constructor].
    + exists []. simpl. rewrite app_nil_r. split; [reflexivity | constructor].
Qed.

End HelperFacts.

(** ** helpers.py: the response formatter *)




Lemma result_payload_dumps (text : string) :
  json_dumps None false (VDict [(KStr "result", VStr text)])
  = Ret (result_payload text).
Proof. reflexivity. Qed.

Lemma serialize_error_payload_dumps (text : string) :
  json_dumps None false
    (VDict [(KStr "error", VStr "Failed to serialize response");
            (KStr "details", VStr text)])
  = Ret (serialize_error_payload text).
Proof. reflexivity. Qed.



(** ** The claims on the stand-ins *)

Module Examples.

Import Fixture.

Local Abbreviation get_client' := (get_client cfg lib_OAuth2_init lib_TickTickClient_init).
Local Abbreviation setup_auth' := (setup_auth cfg lib_OAuth2_init lib_TickTickClient_init).
Local Abbreviation authenticate' :=
  (authenticate cfg lib_OAuth2_init lib_TickTickClient_init).

(** On a pipe the prompt for the redirect URL fails with the pointer to
    the setup command, and the pending protocol message stays unread. *)
Lemma get_user_input_on_pipe :
  exists e,
    _get_user_input "Enter the URL you were redirected to: " piped
    = (Raise e, piped)
    /\ exc_class e = RuntimeError
    /\ contains "Run the setup command first in a separate terminal"
         (exc_msg e) = true
    /\ contains "ticktick-mcp-setup" (exc_msg e) = true
    /\ stdin_reads
         (snd (_get_user_input "Enter the URL you were redirected to: " piped))
       = stdin_reads piped
    /\ stdin_pending
         (snd (_get_user_input "Enter the URL you were redirected to: " piped))
       = stdin_pending piped.
Proof.
  apply (@get_user_input_fails_without_terminal bool
           "Enter the URL you were redirected to: " piped).
  reflexivity.
Defined.

(** At a terminal the same call reads a line. *)
Example get_user_input_at_terminal :
  _get_user_input "Enter the URL you were redirected to: " terminal
  = (Ret "http://localhost/cb?code=abc",
     mkSys true [] 1 ["Enter the URL you were redirected to: "] false).
Proof. reflexivity. Qed.

(** Three calls with valid credentials at a terminal: one construction,
    the same handle three times. *)
Example get_client_three_times :
  fst (get_client_times cfg lib_OAuth2_init lib_TickTickClient_init 3
         (start terminal))
  = [Ret (Some demo_client); Ret (Some demo_client); Ret (Some demo_client)]
  /\ calls (snd (get_client_times cfg lib_OAuth2_init lib_TickTickClient_init 3
                   (start terminal)))
     = [CallOAuth2 (oauth2_args cfg);
        CallTickTickClient (USERNAME cfg) (PASSWORD cfg)].
Proof. split; reflexivity. Qed.

(** Three calls on a pipe: the one attempt fails, and is not repeated. *)
Example get_client_three_times_on_pipe :
  fst (get_client_times cfg lib_OAuth2_init lib_TickTickClient_init 3
         (start piped))
  = [Ret None; Ret None; Ret None]
  /\ calls (snd (get_client_times cfg lib_OAuth2_init lib_TickTickClient_init 3
                   (start piped)))
     = [CallOAuth2 (oauth2_args cfg)].
Proof. split; reflexivity. Qed.

(** Without client secret the accessor answers [None] and constructs
    nothing. *)
Lemma get_client_without_secret :
  get_client cfg_no_secret lib_OAuth2_init lib_TickTickClient_init
    (start terminal)
  = (Ret None,
     mkProcess terminal [error_no_credentials; warning_unavailable] [] None true).
Proof.
  apply (@get_client_without_credentials bool string cfg_no_secret
           lib_OAuth2_init lib_TickTickClient_init terminal None).
  - simpl. auto.
  - left. reflexivity.
Defined.

(** On a pipe the negotiator's [RuntimeError] is caught by the
    accessor. *)
Lemma get_client_on_pipe :
  exists p',
    get_client' (start piped) = (Ret None, p')
    /\ _instance p' = None
    /\ _initialized p' = true
    /\ sys p' = piped
    /\ In (error_initializing (mkExc RuntimeError (join newline error_msg)))
         (logs p').
Proof.
  apply (@get_client_catches_errors bool string cfg lib_OAuth2_init
           lib_TickTickClient_init (start piped)
           (mkExc RuntimeError (join newline error_msg)) piped);
    reflexivity.
Defined.

(** C6 as stated fails: Ctrl-C at the prompt raises [KeyboardInterrupt]
    inside the negotiator's constructor, and the accessor lets it
    through to its caller. *)
Lemma get_client_interrupt_propagates :
  fst (authenticate' terminal_ctrl_c) = Raise (mkExc KeyboardInterrupt "")
  /\ fst (get_client' (start terminal_ctrl_c))
     = Raise (mkExc KeyboardInterrupt "")
  /\ ~ (exists handle p',
          get_client' (start terminal_ctrl_c) = (Ret handle, p')).
Proof.
  split; [reflexivity|]. split; [reflexivity|].
  intros (handle & p' & H). vm_compute in H. discriminate H.
Qed.


Example setup_auth_at_terminal :
  fst (setup_auth' (start terminal)) = Ret true.
Proof. reflexivity. Qed.

Example setup_auth_on_pipe_false :
  fst (setup_auth' (start piped)) = Ret false.
Proof. reflexivity. Qed.


(** C3 as stated fails for the aggregator: with no session it raises,
    and returns no payload. *)
Lemma aggregator_unavailable_raises :
  fst (_get_all_tasks_from_ticktick None (fun l => l) empty_env)
  = Raise (mkExc ConnectionError "TickTick client not initialized.")
  /\ ~ (exists payload s',
          _get_all_tasks_from_ticktick None (fun l => l) empty_env
          = (Ret payload, s')).
Proof.
  split; [reflexivity|].
  intros (payload & s' & H). vm_compute in H. discriminate H.
Qed.

(** The guard's payload, whatever the tool behind it. *)
Example require_client_unavailable :
  fst (require_client None
         (fun _ : unit => raise (mkExc (OtherException "Boom") "never run"))
         tt empty_env)
  = Ret not_initialized_payload.
Proof. reflexivity. Qed.

(** The three-project case: P1 fails, P2 is empty, INBOX has two
    records; the result is the two records, with one warning, for P1. *)
Lemma aggregator_partial_failure :
  exists s',
    _get_all_tasks_from_ticktick (Some demo_client) (fun l => l) empty_env
    = (Ret (flat_map (fun k => contribution (get_from_project demo_client k))
              [KStr "P1"; KStr "P2"; KStr "INBOX"]), s')
    /\ env_fetched s' = env_fetched empty_env ++ [KStr "P1"; KStr "P2"; KStr "INBOX"]
    /\ exists debug info,
        env_logs s' =
          env_logs empty_env ++ [debug]
          ++ flat_map (fun k => fetch_warnings k (get_from_project demo_client k))
               [KStr "P1"; KStr "P2"; KStr "INBOX"]
          ++ [info].
Proof.
  apply (@aggregator_concatenates (fun l => l) demo_client empty_env empty_env
           [KStr "P1"; KStr "P2"; KStr "INBOX"]).
  - reflexivity.
  - intros k [<- | [<- | [<- | []]]]; reflexivity.
Defined.

Example aggregator_partial_failure_result :
  fst (_get_all_tasks_from_ticktick (Some demo_client) (fun l => l) empty_env)
  = Ret [task1; task2]
  /\ fst (_get_all_tasks_from_ticktick (Some demo_client) (@rev PyKey) empty_env)
     = Ret [task1; task2]
  /\ filter (fun r => match log_level r with WARNING => true | _ => false end)
       (env_logs (snd (_get_all_tasks_from_ticktick (Some demo_client)
                         (fun l => l) empty_env)))
     = [mkLog WARNING "Failed to get tasks for project {}: {}"
          [AVal (VStr "P1");
           AExc (mkExc (OtherException "HTTPError") "500 Server Error")]].
Proof. repeat split; reflexivity. Qed.

Lemma flat_map_all_nil {A B} (f : A -> list B) (l : list A) :
  (forall k, In k l -> f k = []) -> flat_map f l = [].
Proof.
  induction l as [|x l IH]; intros Hnil; simpl; [reflexivity|].
  rewrite (Hnil x) by (left; reflexivity). simpl.
  apply IH. intros k Hk. apply Hnil. right. exact Hk.
Qed.

Lemma flat_map_single {A B} (f : A -> list B) (k0 : A) (l : list A) :
  NoDup l -> In k0 l -> (forall k, In k l -> k <> k0 -> f k = []) ->
  flat_map f l = f k0.
Proof.
  induction 1 as [|x l Hx Hl IH]; intros Hin Hnil; [contradiction|].
  simpl. destruct Hin as [-> | Hin].
  - rewrite flat_map_all_nil, app_nil_r; [reflexivity|].
    intros k Hk. apply Hnil; [right; exact Hk|].
    intros ->. contradiction.
  - rewrite (Hnil x); [|left; reflexivity | intros ->; contradiction].
    apply IH; [exact Hin|].
    intros k Hk. apply Hnil. right. exact Hk.
Qed.

(** The same in whatever order the set is iterated. *)
Example aggregator_partial_failure_any_order (set_order : list PyKey -> list PyKey) :
  (forall l, Permutation (set_order l) l) ->
  fst (_get_all_tasks_from_ticktick (Some demo_client) set_order empty_env)
  = Ret [task1; task2].
Proof.
  intros Hperm.
  pose proof (Hperm [KStr "P1"; KStr "P2"; KStr "INBOX"]) as Hp.
  assert (Hin : forall k, In k (set_order [KStr "P1"; KStr "P2"; KStr "INBOX"]) ->
                          k = KStr "P1" \/ k = KStr "P2" \/ k = KStr "INBOX").
  { intros k Hk. apply (Permutation_in _ Hp) in Hk. simpl in Hk.
    destruct Hk as [<- | [<- | [<- | []]]]; auto. }
  rewrite (@aggregator_run set_order demo_client empty_env empty_env
             [KStr "P1"; KStr "P2"; KStr "INBOX"] eq_refl).
  - simpl. f_equal.
    rewrite (@flat_map_single _ _ _ (KStr "INBOX")).
    + reflexivity.
    + apply (Permutation_NoDup (Permutation_sym Hp)).
      repeat constructor; simpl; intuition discriminate.
    + apply (Permutation_in _ (Permutation_sym Hp)). simpl. auto.
    + intros k Hk Hne. destruct (Hin k Hk) as [-> | [-> | ->]];
        [reflexivity | reflexivity | contradiction].
  - intros k Hk. destruct (Hin k Hk) as [-> | [-> | ->]]; reflexivity.
Qed.

(** A bare record is one item, unchanged. *)
Example single_record_contributes_itself :
  fst (fetch_into (mkClient (Ret []) (Ret VNone) (fun _ => Ret task1))
         [task2] (KStr "P1") empty_env)
  = Ret [task2; task1].
Proof. reflexivity. Qed.


Example project_ids_with_inbox_value :
  fst (collect_project_ids demo_client empty_env)
  = Ret [KStr "P1"; KStr "P2"; KStr "INBOX"].
Proof. reflexivity. Qed.

(** With P1 as the default as well, P1 is in the set once. *)
Example project_ids_overlap_value :
  fst (collect_project_ids overlap_client empty_env)
  = Ret [KStr "P1"; KStr "P2"].
Proof. reflexivity. Qed.

(** With the project state unreadable the set is the default alone. *)
Example project_ids_without_state :
  fst (collect_project_ids stateless_client empty_env) = Ret [KStr "INBOX"].
Proof. reflexivity. Qed.

(** Entries without or with an empty identifier, and an empty default,
    are left out. *)
Lemma fetched_ids_truthy_sparse :
  (forall c ids s1,
      collect_project_ids c empty_env = (Ret ids, s1) ->
      Forall (fun k => truthy (of_key k) = true) ids)
  /\ exists new,
       env_fetched (snd (_get_all_tasks_from_ticktick (Some sparse_client)
                           (@rev PyKey) empty_env))
       = env_fetched empty_env ++ new
       /\ Forall (fun k => truthy (of_key k) = true) new.
Proof.
  apply (@fetched_ids_truthy (@rev PyKey) (Some sparse_client) empty_env).
  intros l k Hk. apply in_rev. exact Hk.
Defined.

Example project_ids_sparse_value :
  fst (collect_project_ids sparse_client empty_env) = Ret [KStr "P2"].
Proof. reflexivity. Qed.


(** A key the serializer refuses gives the JSON error object. *)
Example format_response_bad_key :
  fst (format_response (VDict [(KObj 1 "tuple" "(1, 2)", VInt 1)]) empty_env)
  = Ret (serialize_error_payload
           "keys must be str, int, float, bool or None, not tuple").
Proof. reflexivity. Qed.


End Examples.

(** * Further properties *)

(** ** client.py: the paths of the initialization sequence *)

Section ClientPaths.

Variable Ext : Type.
Variable OAuth2 : Type.
Variable cfg : Config.
Variable OAuth2_init :
  (string -> M (Sys Ext) string) -> OAuth2Args -> M (Sys Ext) OAuth2.
Variable TickTickClient_init :
  option string -> option string -> OAuth2 -> M (Sys Ext) TickTickClient.

Local Abbreviation get_client' := (get_client cfg OAuth2_init TickTickClient_init).
Local Abbreviation setup_auth' := (setup_auth cfg OAuth2_init TickTickClient_init).
Local Abbreviation authenticate' := (authenticate cfg OAuth2_init TickTickClient_init).
Local Abbreviation get_client_times' :=
  (get_client_times cfg OAuth2_init TickTickClient_init).

Ltac run_client :=
  cbv [get_client __init__ setup_auth authenticate bind try_finally
       try_except logging record_call set_instance set_initialized modify
       in_sys print ret raise MCPFriendlyOAuth2 new_TickTickClient].

(** The first call with credentials, when both constructors return:
    the negotiator is built from the configured client id, secret,
    redirect URI and the cache file [.token-oauth] of the configuration
    directory, then the client from the user name, the password and that
    negotiator; the handle is stored and returned, and nothing is logged
    above level INFO. *)
Theorem get_client_first_success (p : Process Ext) (c : TickTickClient)
  (s' : Sys Ext) :
  _initialized p = false ->
  credentials_present cfg = true ->
  authenticate' (sys p) = (Ret c, s') ->
  exists p',
    get_client' p = (Ret (Some c), p')
    /\ _instance p' = Some c
    /\ _initialized p' = true
    /\ sys p' = s'
    /\ calls p' =
         calls p
         ++ [CallOAuth2
               (mkOAuth2Args (CLIENT_ID cfg) (CLIENT_SECRET cfg)
                  (REDIRECT_URI cfg)
                  (dotenv_dir_path cfg ++ "/.token-oauth")%string);
             CallTickTickClient (USERNAME cfg) (PASSWORD cfg)]
    /\ exists new,
         logs p' = logs p ++ new
         /\ Forall (fun r => log_level r = INFO) new.
Proof.
  intros Hinit Hcred. run_client. rewrite Hinit, Hcred. simpl.
  destruct (OAuth2_init (_get_user_input (Ext:=Ext)) (oauth2_args cfg) (sys p))
    as [[auth | e1] s1]; simpl; [|discriminate].
  intros Hclient. rewrite Hclient. simpl.
  eexists. split; [reflexivity|]. simpl.
  split; [reflexivity|]. split; [reflexivity|]. split; [reflexivity|].
  split; [rewrite <- app_assoc; reflexivity|].
  eexists. split.
  - rewrite <- !app_assoc. reflexivity.
  - repeat constructor.
Qed.

(** When the negotiator's constructor raises, whatever it raises, the
    client's constructor is not called. *)
Theorem no_client_without_negotiator (p : Process Ext) (e : PyExc)
  (s' : Sys Ext) :
  _initialized p = false ->
  credentials_present cfg = true ->
  OAuth2_init (_get_user_input (Ext:=Ext)) (oauth2_args cfg) (sys p)
  = (Raise e, s') ->
  calls (snd (get_client' p)) = calls p ++ [CallOAuth2 (oauth2_args cfg)]
  /\ _instance (snd (get_client' p)) = (if isinstance_Exception e
                                        then None else _instance p)
  /\ sys (snd (get_client' p)) = s'.
Proof.
  intros Hinit Hcred Hauth. run_client. rewrite Hinit, Hcred. simpl.
  rewrite Hauth. simpl.
  destruct (isinstance_Exception e); simpl; repeat split; reflexivity.
Qed.

(** An initialization cut short by an exception that is no instance of
    [Exception] is final as well: the first call raises it, and each of
    the [n] calls that follow returns [None] and constructs nothing. *)
Theorem interrupted_init_is_final (s s' : Sys Ext) (e : PyExc) (n : nat) :
  credentials_present cfg = true ->
  authenticate' s = (Raise e, s') ->
  isinstance_Exception e = false ->
  fst (get_client_times' (S n) (start s)) = Raise e :: repeat (Ret None) n
  /\ sys (snd (get_client_times' (S n) (start s))) = s'
  /\ List.length (filter is_CallOAuth2
                    (calls (snd (get_client_times' (S n) (start s))))) = 1.
Proof.
  intros Hcred Hauth Hexc.
  destruct (@get_client_lets_interrupts_through Ext OAuth2 cfg OAuth2_init
              TickTickClient_init (start s) e s' eq_refl Hcred Hauth Hexc)
    as (p1 & Hrun & Hinst & Hinit & Hsys).
  assert (Hcalls : List.length (filter is_CallOAuth2 (calls p1)) = 1).
  { revert Hrun Hauth. run_client. simpl. rewrite Hcred. simpl.
    destruct (OAuth2_init (_get_user_input (Ext:=Ext)) (oauth2_args cfg) s)
      as [[auth | e1] s1]; simpl.
    - destruct (TickTickClient_init (USERNAME cfg) (PASSWORD cfg) auth s1)
        as [[c | e2] s2]; simpl.
      + discriminate.
      + destruct (isinstance_Exception e2); simpl; [discriminate|].
        intros H _. inversion H; subst. reflexivity.
    - destruct (isinstance_Exception e1); simpl; [discriminate|].
      intros H _. inversion H; subst. reflexivity. }
  simpl. rewrite Hrun.
  pose proof (@get_client_times_initialized Ext OAuth2 cfg OAuth2_init
                TickTickClient_init n p1 Hinit) as (T1 & T2 & T3 & T4 & T5).
  destruct (get_client_times' n p1) as [rs p2]. simpl in *.
  rewrite T1, T2, T3, Hinst, Hsys. auto.
Qed.

(** [setup_auth] never touches the session singleton: whatever happens,
    the two class attributes are as before, so a session is not made
    available by running the setup in the same process. *)
Theorem setup_auth_keeps_singleton (p : Process Ext) :
  _instance (snd (setup_auth' p)) = _instance p
  /\ _initialized (snd (setup_auth' p)) = _initialized p.
Proof.
  run_client. simpl.
  destruct (credentials_present cfg); simpl; [|split; reflexivity].
  destruct (OAuth2_init _ _ _) as [[auth | e1] s1]; simpl.
  - destruct (TickTickClient_init _ _ _ _) as [[c | e2] s2]; simpl.
    + split; reflexivity.
    + destruct (isinstance_Exception e2); split; reflexivity.
  - destruct (isinstance_Exception e1); split; reflexivity.
Qed.

(** Without one of the credentials [setup_auth] prints its three
    opening lines, logs the error and returns [False]: no constructor is
    called and nothing is read. *)
Theorem setup_auth_without_credentials (p : Process Ext) (f : option string) :
  In f [CLIENT_ID cfg; CLIENT_SECRET cfg; REDIRECT_URI cfg; USERNAME cfg;
        PASSWORD cfg] ->
  f = None \/ f = Some "" ->
  setup_auth' p =
    (Ret false,
     mkProcess (after_banner (sys p)) (logs p ++ [error_setup_credentials])
               (calls p) (_instance p) (_initialized p)).
Proof.
  intros Hin Hf. pose proof (@credentials_absent cfg f Hin Hf) as Hc.
  run_client. rewrite Hc. reflexivity.
Qed.


End ClientPaths.

(** ** helpers.py: what escapes the aggregator and what does not *)

Section AggregatorPaths.

Variable set_order : list PyKey -> list PyKey.

Lemma ids_of_projects_unhashable (projects : list (list (PyKey * PyVal))) :
  forall acc : list PyKey,
    forallb hashable (listed_ids projects) = false ->
    exists e,
      ids_of_projects projects acc = Raise e /\ exc_class e = TypeError.
Proof.
  induction projects as [|p rest IH]; intros acc Hhash.
  - discriminate.
  - unfold listed_ids in *. simpl in *.
    destruct (truthy (dict_get (KStr "id") p)) eqn:Ht.
    + simpl in Hhash. unfold set_add_val, hashable in *.
      destruct (as_key (dict_get (KStr "id") p)) as [k0|] eqn:Hk.
      * apply IH. exact Hhash.
      * eexists. split; reflexivity.
    + apply IH. exact Hhash.
Qed.

(** The set comprehension of line 53 stands outside every [try]: when
    the project state lists a truthy identifier that cannot be hashed (a
    list or a dict), the aggregator raises [TypeError] to its caller,
    before any fetch and without a log record. *)
Theorem unhashable_project_id_escapes (c : TickTickClient) (s : Env)
  (projects : list (list (PyKey * PyVal))) :
  state_get_projects c = Ret projects ->
  forallb hashable (listed_ids projects) = false ->
  exists e,
    _get_all_tasks_from_ticktick (Some c) set_order s = (Raise e, s)
    /\ exc_class e = TypeError.
Proof.
  intros Hstate Hhash.
  destruct (ids_of_projects_unhashable projects [] Hhash) as (e & Hrun & He).
  exists e. split; [|exact He].
  unfold _get_all_tasks_from_ticktick, collect_project_ids, read_projects_state,
    bind, try_except, lift.
  rewrite Hstate, Hrun. reflexivity.
Qed.

(** The default identifier is added inside its [try]: one that is truthy
    but cannot be hashed is logged as an error, and the set stays as it
    was. *)
Theorem unhashable_inbox_id_is_logged (c : TickTickClient) (s : Env)
  (project_ids : list PyKey) (v : PyVal) :
  inbox_id c = Ret v ->
  truthy v = true ->
  hashable v = false ->
  exists e,
    add_inbox_id c project_ids s =
      (Ret project_ids,
       mkEnv (env_logs s
              ++ [mkLog ERROR "Error accessing client inbox_id: {}" [AExc e]])
             (env_fetched s))
    /\ exc_class e = TypeError.
Proof.
  intros Hinbox Hv Hhash.
  unfold add_inbox_id, bind, try_except, lift, log, modify, ret, set_add_val.
  rewrite Hinbox, Hv. unfold hashable in Hhash.
  destruct (as_key v); [discriminate|]. simpl.
  eexists. split; reflexivity.
Qed.

Lemma collect_returns (c : TickTickClient) (s : Env) :
  caught (state_get_projects c) = true ->
  caught (inbox_id c) = true ->
  forallb hashable (listed_ids (snapshot_of c)) = true ->
  exists ids s',
    collect_project_ids c s = (Ret ids, s')
    /\ env_fetched s' = env_fetched s.
Proof.
  intros Hstate Hinbox Hhash.
  pose proof (collect_fetches_nothing c s) as Hsame. revert Hsame.
  unfold collect_project_ids, read_projects_state, add_inbox_id, snapshot_of,
    caught in *.
  unfold bind, try_except, lift, log, modify, ret.
  assert (Hids : exists acc, ids_of_projects
                               match state_get_projects c with
                               | Ret projects => projects
                               | Raise _ => []
                               end [] = Ret acc).
  { destruct (@ids_of_projects_union _ [] Hhash eq_refl) as (acc & Hrun & _).
    exists acc. exact Hrun. }
  destruct Hids as (acc & Hrun).
  destruct (state_get_projects c) as [projects | e1]; [|rewrite Hstate]; simpl;
    simpl in Hrun; try rewrite Hrun; try (inversion Hrun; subst acc);
    (destruct (inbox_id c) as [v | e2]; [|rewrite Hinbox]; simpl;
     [ destruct (truthy v); simpl;
       [ match goal with
         | |- context [set_add_val ?a ?b] =>
             destruct (set_add_val a b) as [acc' | e3] eqn:Hadd; simpl;
             [| assert (He3 : isinstance_Exception e3 = true)
                  by (unfold set_add_val in Hadd; destruct (as_key a);
                      [discriminate | inversion Hadd; reflexivity]);
                rewrite He3; simpl ]
         end | ] | ]);
    intros Hsame; eexists; eexists; (split; [reflexivity | exact Hsame]).
Qed.

(** End to end: with a session whose two reads return or fail with an
    error, whose listed identifiers can be hashed and whose fetches
    return or fail with an error, the aggregator returns a list and
    raises nothing; and every item of that list is an element of a list
    some fetch returned, or a dict some fetch returned. *)
Theorem aggregator_returns (c : TickTickClient) (s : Env) :
  caught (state_get_projects c) = true ->
  caught (inbox_id c) = true ->
  forallb hashable (listed_ids (snapshot_of c)) = true ->
  (forall k, caught (get_from_project c k) = true) ->
  exists tasks s',
    _get_all_tasks_from_ticktick (Some c) set_order s = (Ret tasks, s')
    /\ forall t,
         In t tasks ->
         exists k,
           In k (env_fetched s')
           /\ ((exists items, get_from_project c k = Ret (VList items)
                              /\ In t items)
               \/ (exists entries, t = VDict entries
                                   /\ get_from_project c k = Ret t)).
Proof.
  intros Hstate Hinbox Hhash Hfetch.
  destruct (collect_returns c s Hstate Hinbox Hhash) as (ids & s1 & Hids & _).
  rewrite (@aggregator_run set_order c s s1 ids Hids (fun k _ => Hfetch k)).
  eexists; eexists. split; [reflexivity|].
  intros t Ht. apply in_flat_map in Ht. destruct Ht as (k & Hk & Hin).
  exists k. split; [simpl; apply in_or_app; right; exact Hk|].
  unfold contribution in Hin.
  destruct (get_from_project c k) as [v | e]; [|contradiction].
  destruct v as [ | | | | | items | [|kv entries] | ]; try contradiction.
  - left. exists items. split; [reflexivity | exact Hin].
  - right. destruct Hin as [<- | []]. eexists. split; reflexivity.
Qed.

Lemma fetch_all_interrupted (c : TickTickClient) (before : list PyKey) :
  forall (after : list PyKey) (k : PyKey) (e : PyExc)
         (all_tasks : list PyVal) (s : Env),
    (forall x, In x before -> caught (get_from_project c x) = true) ->
    get_from_project c k = Raise e ->
    isinstance_Exception e = false ->
    fetch_all c (before ++ k :: after) all_tasks s =
      (Raise e,
       mkEnv (env_logs s
              ++ flat_map (fun x => fetch_warnings x (get_from_project c x))
                   before)
             (env_fetched s ++ before ++ [k])).
Proof.
  induction before as [|x before IH]; intros after k e all_tasks s Hbefore Hk He.
  - simpl. unfold bind, fetch_into, try_except, fetch. rewrite Hk. simpl.
    rewrite He, app_nil_r. reflexivity.
  - simpl. unfold bind at 1.
    rewrite fetch_into_caught by (apply Hbefore; left; reflexivity).
    rewrite (IH after k e) by
      (first [exact Hk | exact He
             | intros y Hy; apply Hbefore; right; exact Hy]).
    simpl. rewrite <- !app_assoc. reflexivity.
Qed.

(** A fetch that raises an exception that is no instance of [Exception]
    ends the aggregation: the exception reaches the caller, the
    identifiers after it are not fetched, and what was collected is
    lost. *)
Theorem aggregator_stops_at_interrupt (c : TickTickClient) (s s1 : Env)
  (ids before after : list PyKey) (k : PyKey) (e : PyExc) :
  collect_project_ids c s = (Ret ids, s1) ->
  set_order ids = before ++ k :: after ->
  (forall x, In x before -> caught (get_from_project c x) = true) ->
  get_from_project c k = Raise e ->
  isinstance_Exception e = false ->
  exists s',
    _get_all_tasks_from_ticktick (Some c) set_order s = (Raise e, s')
    /\ env_fetched s' = env_fetched s1 ++ before ++ [k].
Proof.
  intros Hids Horder Hbefore Hk He.
  unfold _get_all_tasks_from_ticktick, bind. rewrite Hids.
  unfold log at 1. unfold modify. rewrite Horder.
  rewrite (@fetch_all_interrupted c before after k e [] _ Hbefore Hk He).
  eexists. split; reflexivity.
Qed.

End AggregatorPaths.

(** ** helpers.py: what the response formatter returns *)




(** *** The output is ASCII *)

Lemma ascii_only_app (a b : string) :
  ascii_only (a ++ b) = ascii_only a && ascii_only b.
Proof.
  induction a as [|x a IH]; simpl; [reflexivity|].
  rewrite IH, andb_assoc. reflexivity.
Qed.

Lemma ascii_only_chr (c : N) : (c < 128)%N -> ascii_only (chr c) = true.
Proof.
  intros Hc. unfold chr. simpl.
  rewrite N_ascii_embedding by lia.
  apply andb_true_iff. split; [apply N.ltb_lt; exact Hc | reflexivity].
Qed.

Lemma ascii_only_hex_digit (n : N) : (n < 16)%N -> ascii_only (hex_digit n) = true.
Proof.
  intros Hn. unfold hex_digit.
  destruct (n <? 10)%N; apply ascii_only_chr; lia.
Qed.

Lemma ascii_only_hex4 (n : N) : ascii_only (hex4 n) = true.
Proof.
  unfold hex4. rewrite !ascii_only_app.
  rewrite !ascii_only_hex_digit by (apply N.mod_lt; discriminate).
  reflexivity.
Qed.

Lemma ascii_only_escape (c : N) : ascii_only (escape_code_point c) = true.
Proof.
  unfold escape_code_point.
  repeat match goal with
         | |- context [if ?b then _ else _] => destruct b eqn:?
         end;
    try reflexivity.
  - apply ascii_only_chr.
    match goal with
    | H : (_ && _)%bool = true |- _ =>
        apply andb_true_iff in H; destruct H as [_ H];
        apply N.leb_le in H; lia
    end.
  - rewrite !ascii_only_app, ascii_only_hex4. reflexivity.
  - rewrite !ascii_only_app, !ascii_only_hex4. reflexivity.
Qed.

Lemma ascii_only_concat (parts : list string) :
  Forall (fun p => ascii_only p = true) parts ->
  ascii_only (String.concat "" parts) = true.
Proof.
  induction 1 as [|p rest Hp Hrest IH]; [reflexivity|].
  simpl. destruct rest as [|q rest]; [exact Hp|].
  rewrite ascii_only_app, Hp. simpl. exact IH.
Qed.

Lemma ascii_only_encode_str (s : string) : ascii_only (encode_str s) = true.
Proof.
  unfold encode_str. rewrite !ascii_only_app, ascii_only_concat.
  - reflexivity.
  - apply Forall_forall. intros p Hp. apply in_map_iff in Hp.
    destruct Hp as (c & <- & _). apply ascii_only_escape.
Qed.

Lemma ascii_only_uint (u : Decimal.uint) :
  ascii_only (NilZero.string_of_uint u) = true.
Proof.
  assert (H : ascii_only (NilEmpty.string_of_uint u) = true)
    by (induction u; simpl; auto).
  destruct u; simpl in *; auto.
Qed.

Lemma ascii_only_str_of_Z (z : Z) : ascii_only (str_of_Z z) = true.
Proof.
  unfold str_of_Z, NilZero.string_of_int.
  destruct (Z.to_int z) as [u | u]; simpl; apply ascii_only_uint.
Qed.

Lemma ascii_only_str_repeat (s : string) (n : nat) :
  ascii_only s = true -> ascii_only (str_repeat s n) = true.
Proof.
  intros Hs. induction n as [|n IH]; simpl; [reflexivity|].
  rewrite ascii_only_app, Hs, IH. reflexivity.
Qed.

Lemma ascii_only_join (sep : string) (parts : list string) :
  ascii_only sep = true ->
  Forall (fun p => ascii_only p = true) parts ->
  ascii_only (join sep parts) = true.
Proof.
  intros Hsep. induction 1 as [|p rest Hp Hrest IH]; [reflexivity|].
  simpl. destruct rest as [|q rest]; [exact Hp|].
  rewrite !ascii_only_app, Hp, Hsep. simpl. exact IH.
Qed.

Lemma ascii_only_newline_indent (indent : option nat) (level : nat) :
  ascii_only (newline_indent indent level) = true.
Proof.
  destruct indent as [n|]; simpl; [|reflexivity].
  apply ascii_only_str_repeat. reflexivity.
Qed.

Lemma ascii_only_item_separator (indent : option nat) (level : nat) :
  ascii_only (item_separator indent level) = true.
Proof.
  destruct indent as [n|]; [|reflexivity].
  unfold item_separator. rewrite ascii_only_app, ascii_only_newline_indent.
  reflexivity.
Qed.

Lemma traverse_Forall {A B} (f : A -> Result B) (P : B -> Prop) (l : list A) :
  Forall (fun x => forall y, f x = Ret y -> P y) l ->
  forall ys, traverse f l = Ret ys -> Forall P ys.
Proof.
  induction 1 as [|x rest Hx Hrest IH]; simpl; intros ys Hys.
  - inversion Hys. constructor.
  - destruct (f x) as [y | e]; [|discriminate].
    destruct (traverse f rest) as [ys' | e]; [|discriminate].
    inversion Hys; subst. constructor; [apply Hx; reflexivity | apply IH; reflexivity].
Qed.

Lemma ascii_only_entry (sk sx : string) :
  ascii_only sx = true ->
  ascii_only (encode_str sk ++ ": " ++ sx) = true.
Proof.
  intros Hsx. rewrite !ascii_only_app, ascii_only_encode_str, Hsx. reflexivity.
Qed.

Lemma encode_ascii (indent : option nat) (default_str : bool) (v : PyVal) :
  forall level out,
    encode indent default_str level v = Ret out -> ascii_only out = true.
Proof.
  induction v as [ | [] | z | s | o c r | items IH | entries IH | n ]
    using PyVal_nested_ind; intros level out Hout; simpl in Hout;
    try (inversion Hout; reflexivity).
  - inversion Hout. apply ascii_only_str_of_Z.
  - inversion Hout. apply ascii_only_encode_str.
  - destruct default_str; [|discriminate].
    inversion Hout. apply ascii_only_encode_str.
  - destruct items as [|x0 rest0]; [inversion Hout; reflexivity|].
    cbn [encode] in Hout.
    destruct (traverse (encode indent default_str (S level)) (x0 :: rest0))
      as [parts | e] eqn:Hparts; [|discriminate].
    inversion Hout. cbn [ascii_only].
    rewrite !ascii_only_app, !ascii_only_newline_indent, ascii_only_join.
    + reflexivity.
    + apply ascii_only_item_separator.
    + apply (@traverse_Forall _ _ (encode indent default_str (S level))
               (fun p => ascii_only p = true) (x0 :: rest0));
        [|exact Hparts].
      rewrite Forall_forall in *. intros x Hx y Hy. exact (IH x Hx _ _ Hy).
  - destruct entries as [|kv0 rest0]; [inversion Hout; reflexivity|].
    cbn [encode] in Hout.
    match type of Hout with
    | match traverse ?f ?l with _ => _ end = _ =>
        destruct (traverse f l) as [parts | e] eqn:Hparts; [|discriminate];
        assert (Hall : Forall (fun p => ascii_only p = true) parts)
    end.
    { match type of Hparts with
      | traverse ?f ?l = _ =>
          apply (@traverse_Forall _ _ f (fun p => ascii_only p = true) l);
          [|exact Hparts]
      end.
      rewrite Forall_forall in *. intros kv Hkv y Hy.
      destruct (encode_key (fst kv)) as [sk | e]; [|discriminate].
      destruct (encode indent default_str (S level) (snd kv)) as [sx | e]
        eqn:Hsx; [|discriminate].
      inversion Hy.
      exact (@ascii_only_entry sk sx (IH kv Hkv _ _ Hsx)). }
    inversion Hout. cbn [ascii_only].
    rewrite !ascii_only_app, !ascii_only_newline_indent, ascii_only_join.
    + reflexivity.
    + apply ascii_only_item_separator.
    + exact Hall.
Qed.

(** Whatever [format_response] returns is pure ASCII: text outside
    ASCII, in values and in keys, leaves as [\u] escapes. *)
Theorem format_response_ascii (v : PyVal) (s s' : Env) (out : string) :
  format_response v s = (Ret out, s') ->
  ascii_only out = true.
Proof.
  assert (Hdumps : forall indent d w text,
             json_dumps indent d w = Ret text -> ascii_only text = true).
  { intros indent d w text. unfold json_dumps. apply encode_ascii. }
  assert (Hother : forall text w,
             (log WARNING "Formatting unexpected type: {} - Value: {}"
                  [AText (type_name w); AVal w] ;;;
              lift (json_dumps None false (VDict [(KStr "result", VStr text)])))
               s = (Ret out, s') ->
             ascii_only out = true).
  { intros text w. unfold bind, log, modify, lift.
    destruct (json_dumps None false (VDict [(KStr "result", VStr text)]))
      as [t | e] eqn:Ht; intros H; inversion H; subst.
    exact (Hdumps _ _ _ _ Ht). }
  assert (Hcontainer :
            forall w,
              try_except_of isinstance_TypeError
                (lift (json_dumps (Some 2) true w))
                (fun e =>
                   log ERROR
                     "Failed to serialize response object: {} - Object: {}"
                     [AExc e; AVal w] ;;;
                   lift (json_dumps None false
                           (VDict [(KStr "error",
                                    VStr "Failed to serialize response");
                                   (KStr "details", VStr (exc_msg e))]))) s
              = (Ret out, s') ->
              ascii_only out = true).
  { intros w. unfold try_except_of, lift, bind, log, modify.
    destruct (json_dumps (Some 2) true w) as [t | e] eqn:Ht.
    - intros H. inversion H; subst. exact (Hdumps _ _ _ _ Ht).
    - destruct (isinstance_TypeError e); [|discriminate].
      match goal with
      | |- context [json_dumps None false ?x] =>
          destruct (json_dumps None false x) as [t | e'] eqn:Ht'
      end; intros H; inversion H; subst.
      exact (Hdumps _ _ _ _ Ht'). }
  destruct v as [ | [] | z | text | o c text | items | entries | n ];
    unfold format_response;
    first [ apply Hother | apply Hcontainer | idtac ].
  unfold lift. intros H. inversion H. reflexivity.
Qed.

(** ** helpers.py: the due date parser *)

Lemma new_date_valid (y m d : N) (dt : date) :
  new_date y m d = Ret dt -> dt = mkDate y m d /\ valid_date dt = true.
Proof.
  unfold new_date, valid_date.
  destruct ((1 <=? y) && (y <=? 9999))%N eqn:Hy; simpl; [|discriminate].
  destruct ((1 <=? m) && (m <=? 12))%N eqn:Hm; simpl; [|discriminate].
  destruct ((1 <=? d) && (d <=? days_in_month y m))%N eqn:Hd; simpl;
    [|discriminate].
  intros H. inversion H; subst. simpl. split; [reflexivity|].
  apply andb_true_iff in Hy, Hm, Hd.
  destruct Hy as [-> ->], Hm as [-> ->], Hd as [-> ->]. reflexivity.
Qed.

Lemma new_date_of_valid (dt : date) :
  valid_date dt = true -> new_date (year dt) (month dt) (day dt) = Ret dt.
Proof.
  unfold new_date, valid_date. intros H.
  repeat (apply andb_true_iff in H; destruct H as [H ?]).
  repeat match goal with
         | E : _ = true |- _ => rewrite E; clear E
         end.
  simpl. destruct dt; reflexivity.
Qed.

Section DueDateFacts.

Variable decimal_digit : N -> option N.
Variable str_repr : string -> string.

Local Abbreviation parse := (_parse_due_date decimal_digit str_repr).

(** A due date that is missing, empty or not a [str] gives [None], and
    nothing is logged. *)
Theorem parse_due_date_not_text (v : PyVal) (st : Env) :
  (forall s, v = VStr s -> s = "") ->
  parse v st = (Ret None, st).
Proof.
  intros Hv. destruct v; try reflexivity.
  rewrite (Hv s eq_refl). reflexivity.
Qed.

(** A text of fewer than ten characters gives [None] and one warning
    that it is too short; characters are counted, not bytes. *)
Theorem parse_due_date_short (s : string) (st : Env) :
  s <> "" ->
  (List.length (code_points s) < 10)%nat ->
  parse (VStr s) st =
    (Ret None,
     mkEnv (env_logs st
            ++ [mkLog WARNING "dueDate string too short to parse: {}"
                      [AVal (VStr s)]])
           (env_fetched st)).
Proof.
  intros Hs Hlen. unfold _parse_due_date.
  destruct s as [|a s]; [contradiction|]. cbn [str_truthy negb].
  unfold try_except_of, bind, log, modify, ret.
  destruct (10 <=? List.length (code_points (String a s)))%nat eqn:Hle.
  - apply Nat.leb_le in Hle. lia.
  - reflexivity.
Qed.

(** Whatever is returned as a date is a date of the calendar: year 1 to
    9999, month 1 to 12, and a day the month has in that year; and a
    date is returned without any log record. *)
Theorem parse_due_date_valid (v : PyVal) (st st' : Env) (dt : date) :
  parse v st = (Ret (Some dt), st') ->
  valid_date dt = true /\ st' = st.
Proof.
  unfold _parse_due_date. destruct v as [ | | | s | | | | ]; try discriminate.
  destruct (negb (str_truthy s)); [discriminate|].
  unfold try_except_of, bind, log, modify, ret, lift.
  destruct (10 <=? List.length (code_points s))%nat; [|discriminate].
  destruct (strptime_date decimal_digit str_repr (firstn 10 (code_points s)))
    as [d0 | e] eqn:Hparse.
  - intros H. inversion H; subst. split; [|reflexivity].
    unfold strptime_date in Hparse.
    destruct (re_Y_m_d decimal_digit (firstn 10 (code_points s)))
      as [|[ymd [|c rest]] others]; try discriminate.
    apply new_date_valid in Hparse. apply Hparse.
  - destruct (isinstance_ValueError_or_TypeError e); discriminate.
Qed.

(** *** The matches of the compiled expression *)

Lemma m_seq_first {A B C} (f : A -> B -> C) (p : Matcher A) (q : Matcher B)
  (s r r' : list N) (a : A) (b : B) (t : list (A * list N))
  (t' : list (B * list N)) :
  p s = (a, r) :: t ->
  q r = (b, r') :: t' ->
  exists t'', m_seq f p q s = (f a b, r') :: t''.
Proof.
  intros Hp Hq. unfold m_seq. rewrite Hp. simpl. rewrite Hq. simpl.
  eexists. reflexivity.
Qed.

Lemma in_m_seq {A B C} (f : A -> B -> C) (p : Matcher A) (q : Matcher B)
  (s r' : list N) (c : C) :
  In (c, r') (m_seq f p q s) ->
  exists a r b, In (a, r) (p s) /\ In (b, r') (q r) /\ c = f a b.
Proof.
  unfold m_seq. intros H. apply in_flat_map in H.
  destruct H as ([a r] & Hp & Hq). apply in_map_iff in Hq.
  destruct Hq as ([b r''] & Heq & Hq). simpl in *. inversion Heq; subst.
  exists a, r, b. auto.
Qed.

Lemma in_m_lit (c : N) (s r : list N) (u : unit) :
  In (u, r) (m_lit c s) -> s = c :: r.
Proof.
  unfold m_lit. destruct s as [|x rest]; [contradiction|].
  destruct (x =? c)%N eqn:Hx; [|contradiction].
  intros [H | []]. inversion H; subst. apply N.eqb_eq in Hx. subst. reflexivity.
Qed.

Lemma in_m_range (lo hi : N) (s r : list N) (v : N) :
  In (v, r) (m_range lo hi s) ->
  exists x, s = x :: r /\ (lo <= x <= hi)%N /\ v = (x - 48)%N.
Proof.
  unfold m_range. destruct s as [|x rest]; [contradiction|].
  destruct ((lo <=? x) && (x <=? hi))%N eqn:Hx; [|contradiction].
  intros [H | []]. inversion H; subst.
  apply andb_true_iff in Hx. destruct Hx as [H1 H2].
  apply N.leb_le in H1, H2. exists x. auto.
Qed.

Lemma in_m_digit (s r : list N) (v : N) :
  In (v, r) (m_digit decimal_digit s) ->
  exists x, s = x :: r /\ decimal_digit x = Some v.
Proof.
  unfold m_digit. destruct s as [|x rest]; [contradiction|].
  destruct (decimal_digit x) as [w|] eqn:Hx; [|contradiction].
  intros [H | []]. inversion H; subst. exists x. auto.
Qed.

Lemma in_m_alt {A} (p q : Matcher A) (s : list N) (x : A * list N) :
  In x (m_alt p q s) -> In x (p s) \/ In x (q s).
Proof. unfold m_alt. apply in_app_or. Qed.

Ltac split_tests :=
  repeat match goal with
         | |- context [(?x <=? ?y)%N] => destruct (N.leb_spec x y); try lia
         | |- context [(?x =? ?y)%N] => destruct (N.eqb_spec x y); try lia
         end.

Ltac run_matcher :=
  repeat (progress (cbn [flat_map map app fst snd andb]; split_tests)).

Lemma re_Y_exact (a b c d y : N) (r : list N) :
  four_digit_year decimal_digit a b c d = Some y ->
  re_Y decimal_digit (a :: b :: c :: d :: r) = [(y, r)].
Proof.
  unfold four_digit_year, re_Y, m_seq, m_digit. simpl.
  destruct (decimal_digit a); simpl; [|discriminate].
  destruct (decimal_digit b); simpl; [|discriminate].
  destruct (decimal_digit c); simpl; [|discriminate].
  destruct (decimal_digit d); simpl; [|discriminate].
  intros H. inversion H. reflexivity.
Qed.

Lemma re_Y_inv (y : N) (s r : list N) :
  In (y, r) (re_Y decimal_digit s) ->
  exists a b c d,
    s = a :: b :: c :: d :: r
    /\ four_digit_year decimal_digit a b c d = Some y.
Proof.
  unfold re_Y. intros H.
  apply in_m_seq in H. destruct H as (v3 & r3 & vd & H3 & Hd & ->).
  apply in_m_seq in H3. destruct H3 as (v2 & r2 & vc & H2 & Hc & ->).
  apply in_m_seq in H2. destruct H2 as (va & r1 & vb & Ha & Hb & ->).
  apply in_m_digit in Ha, Hb, Hc, Hd.
  destruct Ha as (a & -> & Ha), Hb as (b & -> & Hb), Hc as (c & -> & Hc),
    Hd as (d & -> & Hd).
  exists a, b, c, d. split; [reflexivity|].
  unfold four_digit_year. rewrite Ha, Hb, Hc, Hd. reflexivity.
Qed.

Lemma re_m_first (a b m : N) (r : list N) :
  two_digit_month a b = Some m ->
  exists t, re_m (a :: b :: r) = (m, r) :: t.
Proof.
  unfold two_digit_month, re_m, m_alt, m_seq, m_range.
  run_matcher; intros Hm; inversion Hm; subst; eexists; reflexivity.
Qed.

Lemma re_m_inv (m : N) (s r : list N) :
  In (m, r) (re_m s) ->
  (exists a b, s = a :: b :: r /\ two_digit_month a b = Some m)
  \/ (exists a, s = a :: r).
Proof.
  unfold re_m. intros H.
  apply in_m_alt in H. destruct H as [H | H];
    [|apply in_m_alt in H; destruct H as [H | H]].
  - left. apply in_m_seq in H. destruct H as (va & r1 & vb & Ha & Hb & ->).
    apply in_m_range in Ha, Hb.
    destruct Ha as (a & -> & Ha & ->), Hb as (b & -> & Hb & ->).
    exists a, b. split; [reflexivity|].
    unfold two_digit_month. split_tests; cbn [andb]; subst a; reflexivity.
  - left. apply in_m_seq in H. destruct H as (va & r1 & vb & Ha & Hb & ->).
    apply in_m_range in Ha, Hb.
    destruct Ha as (a & -> & Ha & ->), Hb as (b & -> & Hb & ->).
    exists a, b. split; [reflexivity|].
    unfold two_digit_month. split_tests; cbn [andb]; subst a; reflexivity.
  - right. apply in_m_range in H. destruct H as (a & -> & _).
    exists a. reflexivity.
Qed.

Lemma re_d_first (a b d : N) (r : list N) :
  two_char_day decimal_digit a b = Some d ->
  exists t, re_d decimal_digit (a :: b :: r) = (d, r) :: t.
Proof.
  unfold two_char_day, re_d, m_alt, m_seq, m_range, m_lit, m_digit.
  run_matcher; try discriminate;
    try (destruct (decimal_digit b); try discriminate);
    cbn [flat_map map app fst snd];
    intros Hd; inversion Hd; subst; eexists; reflexivity.
Qed.

Lemma re_d_inv (d : N) (s r : list N) :
  In (d, r) (re_d decimal_digit s) ->
  (exists a b, s = a :: b :: r /\ two_char_day decimal_digit a b = Some d)
  \/ (exists a, s = a :: r).
Proof.
  unfold re_d. intros H.
  apply in_m_alt in H. destruct H as [H | H];
    [|apply in_m_alt in H; destruct H as [H | H];
      [|apply in_m_alt in H; destruct H as [H | H];
        [|apply in_m_alt in H; destruct H as [H | H]]]].
  - left. apply in_m_seq in H. destruct H as (va & r1 & vb & Ha & Hb & ->).
    apply in_m_range in Ha, Hb.
    destruct Ha as (a & -> & Ha & ->), Hb as (b & -> & Hb & ->).
    exists a, b. split; [reflexivity|].
    unfold two_char_day. split_tests; cbn [andb]; subst a; reflexivity.
  - left. apply in_m_seq in H. destruct H as (va & r1 & vb & Ha & Hb & ->).
    apply in_m_range in Ha. apply in_m_digit in Hb.
    destruct Ha as (a & -> & Ha & ->), Hb as (b & -> & Hb).
    exists a, b. split; [reflexivity|].
    unfold two_char_day. rewrite Hb. split_tests; cbn [andb]; reflexivity.
  - left. apply in_m_seq in H. destruct H as (va & r1 & vb & Ha & Hb & ->).
    apply in_m_range in Ha, Hb.
    destruct Ha as (a & -> & Ha & ->), Hb as (b & -> & Hb & ->).
    exists a, b. split; [reflexivity|].
    unfold two_char_day. split_tests; cbn [andb]; subst a; reflexivity.
  - right. apply in_m_range in H. destruct H as (a & -> & _).
    exists a. reflexivity.
  - left. apply in_m_seq in H. destruct H as (u & r1 & vb & Ha & Hb & ->).
    apply in_m_lit in Ha. apply in_m_range in Hb.
    destruct Hb as (b & -> & Hb & ->). subst s.
    exists 32%N, b. split; [reflexivity|].
    unfold two_char_day. split_tests; cbn [andb]; reflexivity.
Qed.

Lemma re_Y_m_d_first (c0 c1 c2 c3 c5 c6 c8 c9 y m d : N) (r : list N) :
  four_digit_year decimal_digit c0 c1 c2 c3 = Some y ->
  two_digit_month c5 c6 = Some m ->
  two_char_day decimal_digit c8 c9 = Some d ->
  exists t,
    re_Y_m_d decimal_digit
      (c0 :: c1 :: c2 :: c3 :: 45%N :: c5 :: c6 :: 45%N :: c8 :: c9 :: r)
    = ((y, m, d), r) :: t.
Proof.
  intros Hy Hm Hd.
  destruct (@re_m_first c5 c6 m (45%N :: c8 :: c9 :: r) Hm) as [tm Hrm].
  destruct (@re_d_first c8 c9 d r Hd) as [td Hrd].
  pose proof (@re_Y_exact c0 c1 c2 c3 y
                (45%N :: c5 :: c6 :: 45%N :: c8 :: c9 :: r) Hy) as HrY.
  assert (Hlit : forall rest : list N,
             m_lit 45 (45%N :: rest) = (tt, rest) :: []) by reflexivity.
  destruct (@m_seq_first _ _ _ (fun (y0 : N) (_ : unit) => y0)
              (re_Y decimal_digit) (m_lit 45) _ _ _ _ _ _ _ HrY (Hlit _))
    as [t1 H1].
  destruct (@m_seq_first _ _ _ (fun (y0 m0 : N) => (y0, m0)) _ re_m
              _ _ _ _ _ _ _ H1 Hrm) as [t2 H2].
  destruct (@m_seq_first _ _ _ (fun (ym : N * N) (_ : unit) => ym) _ (m_lit 45)
              _ _ _ _ _ _ _ H2 (Hlit _)) as [t3 H3].
  destruct (@m_seq_first _ _ _
              (fun (ym : N * N) (d0 : N) => (fst ym, snd ym, d0)) _
              (re_d decimal_digit) _ _ _ _ _ _ _ H3 Hrd) as [t4 H4].
  exists t4. exact H4.
Qed.

Lemma re_Y_m_d_inv (y m d : N) (data : list N) :
  In ((y, m, d), []) (re_Y_m_d decimal_digit data) ->
  List.length data = 10%nat ->
  exists c0 c1 c2 c3 c5 c6 c8 c9,
    data = [c0; c1; c2; c3; 45%N; c5; c6; 45%N; c8; c9]
    /\ four_digit_year decimal_digit c0 c1 c2 c3 = Some y
    /\ two_digit_month c5 c6 = Some m
    /\ two_char_day decimal_digit c8 c9 = Some d.
Proof.
  unfold re_Y_m_d. intros H Hlen.
  apply in_m_seq in H. destruct H as (ym & r4 & d' & H4 & Hd & Heq).
  apply in_m_seq in H4. destruct H4 as (ym' & r3 & u2 & H3 & Hl2 & ->).
  apply in_m_seq in H3. destruct H3 as (y' & r2 & m' & H2 & Hm & ->).
  apply in_m_seq in H2. destruct H2 as (y'' & r1 & u1 & H1 & Hl1 & ->).
  apply in_m_lit in Hl1, Hl2. apply re_Y_inv in H1.
  destruct H1 as (c0 & c1 & c2 & c3 & -> & Hy).
  simpl in Heq. inversion Heq; subst y m d'. subst r1 r3.
  apply re_m_inv in Hm. apply re_d_inv in Hd.
  destruct Hm as [(c5 & c6 & -> & Hm) | (c5 & ->)];
    destruct Hd as [(c8 & c9 & -> & Hd) | (c8 & ->)];
    simpl in Hlen; try discriminate.
  exists c0, c1, c2, c3, c5, c6, c8, c9. auto.
Qed.

Lemma strptime_date_accepts (c0 c1 c2 c3 c5 c6 c8 c9 : N) (dt : date) :
  four_digit_year decimal_digit c0 c1 c2 c3 = Some (year dt) ->
  two_digit_month c5 c6 = Some (month dt) ->
  two_char_day decimal_digit c8 c9 = Some (day dt) ->
  valid_date dt = true ->
  strptime_date decimal_digit str_repr
    [c0; c1; c2; c3; 45%N; c5; c6; 45%N; c8; c9] = Ret dt.
Proof.
  intros Hy Hm Hd Hvalid. unfold strptime_date.
  destruct (@re_Y_m_d_first c0 c1 c2 c3 c5 c6 c8 c9 _ _ _ [] Hy Hm Hd)
    as [t Hfirst].
  rewrite Hfirst.
  simpl. apply new_date_of_valid. exact Hvalid.
Qed.

Lemma strptime_date_inv (data : list N) (dt : date) :
  strptime_date decimal_digit str_repr data = Ret dt ->
  List.length data = 10%nat ->
  exists c0 c1 c2 c3 c5 c6 c8 c9,
    data = [c0; c1; c2; c3; 45%N; c5; c6; 45%N; c8; c9]
    /\ four_digit_year decimal_digit c0 c1 c2 c3 = Some (year dt)
    /\ two_digit_month c5 c6 = Some (month dt)
    /\ two_char_day decimal_digit c8 c9 = Some (day dt)
    /\ valid_date dt = true.
Proof.
  unfold strptime_date. intros H Hlen.
  destruct (re_Y_m_d decimal_digit data) as [|[[[y m] d] [|c rest]] others]
    eqn:Hre; try discriminate.
  simpl in H. apply new_date_valid in H. destruct H as [-> Hvalid].
  assert (Hin : In ((y, m, d), []) (re_Y_m_d decimal_digit data))
    by (rewrite Hre; left; reflexivity).
  destruct (@re_Y_m_d_inv y m d data Hin Hlen)
    as (c0 & c1 & c2 & c3 & c5 & c6 & c8 & c9 & Hdata & Hy & Hm & Hd).
  exists c0, c1, c2, c3, c5, c6, c8, c9. simpl. auto.
Qed.

Lemma parse_accepts (s : string) (st : Env) (dt : date)
  (c0 c1 c2 c3 c5 c6 c8 c9 : N) (rest : list N) :
  code_points s
  = c0 :: c1 :: c2 :: c3 :: 45%N :: c5 :: c6 :: 45%N :: c8 :: c9 :: rest ->
  four_digit_year decimal_digit c0 c1 c2 c3 = Some (year dt) ->
  two_digit_month c5 c6 = Some (month dt) ->
  two_char_day decimal_digit c8 c9 = Some (day dt) ->
  valid_date dt = true ->
  parse (VStr s) st = (Ret (Some dt), st).
Proof.
  intros Hs Hy Hm Hd Hvalid. unfold _parse_due_date.
  destruct s as [|a s']; [discriminate|]. cbn [str_truthy negb].
  unfold try_except_of, bind, ret, lift. rewrite Hs.
  cbn [List.length Nat.leb firstn].
  rewrite (@strptime_date_accepts c0 c1 c2 c3 c5 c6 c8 c9 dt Hy Hm Hd Hvalid).
  reflexivity.
Qed.

(** The texts that parse, exactly: a date is returned when, and only
    when, the first ten characters are four decimal digits, a hyphen,
    a month of two digits, a hyphen and a day of two characters, and
    make a date of the calendar.  What follows the tenth character is
    ignored; a month or a day written with one digit does not parse. *)
Theorem parse_due_date_accepts_exactly (s : string) (st : Env) (dt : date) :
  parse (VStr s) st = (Ret (Some dt), st)
  <-> exists c0 c1 c2 c3 c5 c6 c8 c9 rest,
        code_points s
        = c0 :: c1 :: c2 :: c3 :: 45%N :: c5 :: c6 :: 45%N :: c8 :: c9 :: rest
        /\ four_digit_year decimal_digit c0 c1 c2 c3 = Some (year dt)
        /\ two_digit_month c5 c6 = Some (month dt)
        /\ two_char_day decimal_digit c8 c9 = Some (day dt)
        /\ valid_date dt = true.
Proof.
  split.
  - unfold _parse_due_date.
    destruct (negb (str_truthy s)); [discriminate|].
    unfold try_except_of, bind, log, modify, ret, lift.
    destruct (10 <=? List.length (code_points s))%nat eqn:Hlen; [|discriminate].
    apply Nat.leb_le in Hlen.
    destruct (strptime_date decimal_digit str_repr (firstn 10 (code_points s)))
      as [d0 | e] eqn:Hparse.
    + intros H. inversion H; subst d0.
      assert (Hten : List.length (firstn 10 (code_points s)) = 10%nat)
        by (rewrite length_firstn; lia).
      destruct (@strptime_date_inv _ dt Hparse Hten)
        as (c0 & c1 & c2 & c3 & c5 & c6 & c8 & c9 & Hdata & Hrest).
      exists c0, c1, c2, c3, c5, c6, c8, c9, (skipn 10 (code_points s)).
      split; [|exact Hrest].
      rewrite <- (firstn_skipn 10 (code_points s)) at 1. rewrite Hdata.
      reflexivity.
    + destruct (isinstance_ValueError_or_TypeError e); discriminate.
  - intros (c0 & c1 & c2 & c3 & c5 & c6 & c8 & c9 & rest & Hs & Hy & Hm & Hd
            & Hvalid).
    exact (@parse_accepts s st dt c0 c1 c2 c3 c5 c6 c8 c9 rest Hs Hy Hm Hd
             Hvalid).
Qed.

(** *** The round trip with [isoformat] *)

Lemma code_points_ascii (c : N) (rest : string) :
  (c < 192)%N ->
  code_points (String (ascii_of_N c) rest) = c :: code_points rest.
Proof.
  intros Hc. cbn [code_points]. rewrite N_ascii_embedding by lia.
  cbv zeta. destruct (N.ltb_spec c 192); [reflexivity | lia].
Qed.

Lemma code_points_isoformat (dt : date) (rest : string) :
  code_points (isoformat dt ++ rest)
  = (48 + (year dt / 1000) mod 10)%N :: (48 + (year dt / 100) mod 10)%N
    :: (48 + (year dt / 10) mod 10)%N :: (48 + year dt mod 10)%N :: 45%N
    :: (48 + (month dt / 10) mod 10)%N :: (48 + month dt mod 10)%N :: 45%N
    :: (48 + (day dt / 10) mod 10)%N :: (48 + day dt mod 10)%N
    :: code_points rest.
Proof.
  assert (Hlt : forall n : N, (48 + n mod 10 < 192)%N).
  { intros n. pose proof (N.mod_lt n 10). lia. }
  unfold isoformat, digit_char, chr. cbn [String.append].
  change "-"%char with (ascii_of_N 45).
  repeat (rewrite code_points_ascii by first [apply Hlt | lia]).
  reflexivity.
Qed.

Lemma days_in_month_le_31 (y m : N) : (days_in_month y m <= 31)%N.
Proof.
  unfold days_in_month.
  repeat match goal with
         | |- context [if ?b then _ else _] => destruct b
         end; lia.
Qed.

(** Parsing after formatting gives the date back: for every date of the
    calendar, its ISO text followed by anything at all (the time part)
    parses to that date, and nothing is logged. *)
Theorem parse_due_date_isoformat (dt : date) (rest : string) (st : Env) :
  reads_ascii_digits decimal_digit ->
  valid_date dt = true ->
  parse (VStr (isoformat dt ++ rest)) st = (Ret (Some dt), st).
Proof.
  intros Hdigits Hvalid.
  assert (Hmod : forall n : N, decimal_digit (48 + n mod 10)%N = Some (n mod 10)%N).
  { intros n. apply Hdigits. apply N.mod_lt. discriminate. }
  pose proof Hvalid as Hbounds. unfold valid_date in Hbounds.
  repeat (apply andb_true_iff in Hbounds; destruct Hbounds as [Hbounds ?]).
  repeat match goal with
         | H : (_ <=? _)%N = true |- _ => apply N.leb_le in H
         end.
  pose proof (days_in_month_le_31 (year dt) (month dt)) as H31.
  apply (@parse_accepts (isoformat dt ++ rest) st dt _ _ _ _ _ _ _ _ _
           (code_points_isoformat dt rest)); [| | |exact Hvalid].
  - unfold four_digit_year. rewrite !Hmod. f_equal. unfold tens.
    zify. Z.to_euclidean_division_equations. lia.
  - assert (Hm : (month dt = 1 \/ month dt = 2 \/ month dt = 3 \/ month dt = 4
                  \/ month dt = 5 \/ month dt = 6 \/ month dt = 7
                  \/ month dt = 8 \/ month dt = 9 \/ month dt = 10
                  \/ month dt = 11 \/ month dt = 12)%N) by lia.
    repeat (destruct Hm as [Hm | Hm]; [rewrite Hm; reflexivity|]).
    rewrite Hm. reflexivity.
  - unfold two_char_day. rewrite Hmod.
    assert (Hd : exists n : nat, (n < 32)%nat /\ day dt = N.of_nat n).
    { exists (N.to_nat (day dt)). split; [lia | rewrite N2Nat.id; reflexivity]. }
    destruct Hd as (n & Hn & Hd). rewrite Hd.
    assert (Hday : (1 <= N.of_nat n)%N) by lia. clear - Hn Hday.
    do 32 (destruct n as [|n]; [first [ reflexivity | lia ]|]).
    lia.
Qed.

End DueDateFacts.

(** ** The further properties on the stand-ins *)

Module MoreExamples.

Import Fixture MoreFixture DueDateFixture.

Local Abbreviation get_client' := (get_client cfg lib_OAuth2_init lib_TickTickClient_init).
Local Abbreviation setup_auth' := (setup_auth cfg lib_OAuth2_init lib_TickTickClient_init).
Local Abbreviation authenticate' :=
  (authenticate cfg lib_OAuth2_init lib_TickTickClient_init).
Local Abbreviation get_client_times' :=
  (get_client_times cfg lib_OAuth2_init lib_TickTickClient_init).

(** The terminal once the user has answered the prompt and the token is
    cached. *)
Local Abbreviation answered :=
  (mkSys true [] 1 ["Enter the URL you were redirected to: "] true).

Lemma get_client_at_terminal :
  exists p',
    get_client' (start terminal) = (Ret (Some demo_client), p')
    /\ _instance p' = Some demo_client
    /\ _initialized p' = true
    /\ sys p' = answered
    /\ calls p' =
         calls (start terminal)
         ++ [CallOAuth2
               (mkOAuth2Args (CLIENT_ID cfg) (CLIENT_SECRET cfg)
                  (REDIRECT_URI cfg)
                  (dotenv_dir_path cfg ++ "/.token-oauth")%string);
             CallTickTickClient (USERNAME cfg) (PASSWORD cfg)]
    /\ exists new,
         logs p' = logs (start terminal) ++ new
         /\ Forall (fun r => log_level r = INFO) new.
Proof.
  apply (@get_client_first_success bool string cfg lib_OAuth2_init
           lib_TickTickClient_init (start terminal) demo_client answered);
    reflexivity.
Defined.

Lemma no_client_on_pipe :
  calls (snd (get_client' (start piped)))
  = calls (start piped) ++ [CallOAuth2 (oauth2_args cfg)]
  /\ _instance (snd (get_client' (start piped)))
     = (if isinstance_Exception (mkExc RuntimeError (join newline error_msg))
        then None else _instance (start piped))
  /\ sys (snd (get_client' (start piped))) = piped.
Proof.
  apply (@no_client_without_negotiator bool string cfg lib_OAuth2_init
           lib_TickTickClient_init (start piped)
           (mkExc RuntimeError (join newline error_msg)) piped);
    reflexivity.
Defined.

Lemma interrupted_init_twice_more :
  fst (get_client_times' 3 (start terminal_ctrl_c))
  = Raise (mkExc KeyboardInterrupt "") :: repeat (Ret None) 2
  /\ sys (snd (get_client_times' 3 (start terminal_ctrl_c)))
     = mkSys true [] 1 ["Enter the URL you were redirected to: "] false
  /\ List.length (filter is_CallOAuth2
                    (calls (snd (get_client_times' 3 (start terminal_ctrl_c)))))
     = 1%nat.
Proof.
  apply (@interrupted_init_is_final bool string cfg lib_OAuth2_init
           lib_TickTickClient_init terminal_ctrl_c
           (mkSys true [] 1 ["Enter the URL you were redirected to: "] false)
           (mkExc KeyboardInterrupt "") 2);
    reflexivity.
Defined.

Lemma setup_auth_without_secret :
  setup_auth cfg_no_secret lib_OAuth2_init lib_TickTickClient_init
    (start terminal)
  = (Ret false,
     mkProcess (after_banner (sys (start terminal)))
               (logs (start terminal) ++ [error_setup_credentials])
               (calls (start terminal)) (_instance (start terminal))
               (_initialized (start terminal))).
Proof.
  apply (@setup_auth_without_credentials bool string cfg_no_secret
           lib_OAuth2_init lib_TickTickClient_init (start terminal) None).
  - simpl. auto.
  - left. reflexivity.
Defined.


(** After a successful setup in the same process the accessor still
    initializes on its own. *)
Example get_client_after_setup_auth :
  calls (snd (get_client' (snd (setup_auth' (start terminal)))))
  = [CallOAuth2 (oauth2_args cfg);
     CallTickTickClient (USERNAME cfg) (PASSWORD cfg);
     CallOAuth2 (oauth2_args cfg);
     CallTickTickClient (USERNAME cfg) (PASSWORD cfg)].
Proof. reflexivity. Qed.

Lemma odd_project_id_escapes :
  exists e,
    _get_all_tasks_from_ticktick (Some odd_client) (fun l => l) empty_env
    = (Raise e, empty_env)
    /\ exc_class e = TypeError.
Proof.
  apply (@unhashable_project_id_escapes (fun l => l) odd_client empty_env
           [project "P1" "Work";
            [(KStr "id", VList [VInt 7]); (KStr "name", VStr "Odd")]]);
    reflexivity.
Defined.

Lemma odd_inbox_id_is_logged :
  exists e,
    add_inbox_id odd_inbox_client [KStr "P1"] empty_env =
      (Ret [KStr "P1"],
       mkEnv (env_logs empty_env
              ++ [mkLog ERROR "Error accessing client inbox_id: {}" [AExc e]])
             (env_fetched empty_env))
    /\ exc_class e = TypeError.
Proof.
  apply (@unhashable_inbox_id_is_logged odd_inbox_client empty_env [KStr "P1"]
           (VList [VStr "INBOX"]));
    reflexivity.
Defined.

Lemma aggregator_returns_for_demo :
  exists tasks s',
    _get_all_tasks_from_ticktick (Some demo_client) (@rev PyKey) empty_env
    = (Ret tasks, s')
    /\ forall t,
         In t tasks ->
         exists k,
           In k (env_fetched s')
           /\ ((exists items, get_from_project demo_client k = Ret (VList items)
                              /\ In t items)
               \/ (exists entries, t = VDict entries
                                   /\ get_from_project demo_client k = Ret t)).
Proof.
  apply (@aggregator_returns (@rev PyKey) demo_client empty_env);
    try reflexivity.
  intros k. unfold demo_client, demo_fetch. simpl.
  repeat match goal with
         | |- context [match ?x with _ => _ end] => destruct x
         end; reflexivity.
Defined.

Lemma aggregator_interrupted_at_P2 :
  exists s',
    _get_all_tasks_from_ticktick (Some interrupted_client) (fun l => l)
      empty_env
    = (Raise (mkExc KeyboardInterrupt ""), s')
    /\ env_fetched s' = env_fetched empty_env ++ [KStr "INBOX"] ++ [KStr "P2"].
Proof.
  apply (@aggregator_stops_at_interrupt (fun l => l) interrupted_client
           empty_env empty_env [KStr "INBOX"; KStr "P2"; KStr "P3"]
           [KStr "INBOX"] [KStr "P3"] (KStr "P2")
           (mkExc KeyboardInterrupt ""));
    try reflexivity.
  intros x [<- | []]. reflexivity.
Defined.


Lemma format_response_accented_is_ascii :
  exists out,
    format_response accented empty_env = (Ret out, empty_env)
    /\ ascii_only out = true.
Proof.
  eexists. split; [reflexivity|].
  apply (@format_response_ascii accented empty_env empty_env). reflexivity.
Defined.

Lemma ascii_digit_reads : reads_ascii_digits ascii_digit.
Proof.
  intros v Hv. unfold ascii_digit.
  destruct (N.leb_spec 48 (48 + v)); [|lia].
  destruct (N.leb_spec (48 + v) 57); [|lia].
  cbn [andb]. f_equal. lia.
Qed.

Lemma parse_none :
  _parse_due_date ascii_digit plain_repr VNone empty_env = (Ret None, empty_env).
Proof.
  apply (@parse_due_date_not_text ascii_digit plain_repr VNone empty_env).
  intros s H. discriminate H.
Defined.

Lemma parse_short_accented :
  _parse_due_date ascii_digit plain_repr (VStr "ééééé") empty_env =
    (Ret None,
     mkEnv (env_logs empty_env
            ++ [mkLog WARNING "dueDate string too short to parse: {}"
                      [AVal (VStr "ééééé")]])
           (env_fetched empty_env)).
Proof.
  apply (@parse_due_date_short ascii_digit plain_repr "ééééé" empty_env).
  - discriminate.
  - vm_compute. lia.
Defined.

Lemma parse_leap_day_valid :
  valid_date (mkDate 2024 2 29) = true /\ empty_env = empty_env.
Proof.
  apply (@parse_due_date_valid ascii_digit plain_repr
           (VStr "2024-02-29T22:00:00.000+0000") empty_env empty_env
           (mkDate 2024 2 29)).
  reflexivity.
Defined.

Lemma parse_isoformat_new_year :
  _parse_due_date ascii_digit plain_repr
    (VStr (isoformat (mkDate 987 1 1) ++ "T00:00:00.000+0000")) empty_env
  = (Ret (Some (mkDate 987 1 1)), empty_env).
Proof.
  apply (@parse_due_date_isoformat ascii_digit plain_repr (mkDate 987 1 1)
           "T00:00:00.000+0000" empty_env).
  - exact ascii_digit_reads.
  - reflexivity.
Defined.

(** One-digit months and days, days the month does not have and the year
    0 do not parse; a day written with a space does. *)
Example parse_edge_cases :
  fst (parse "2024-7-27T00:00:00.000+0000") = Ret None
  /\ fst (parse "2024-07-4T00:00:00.000+0000") = Ret None
  /\ fst (parse "2023-02-29T00:00:00.000+0000") = Ret None
  /\ fst (parse "0000-01-01T00:00:00.000+0000") = Ret None
  /\ fst (parse "2024-13-01T00:00:00.000+0000") = Ret None
  /\ fst (parse "2024-07- 4T00:00:00.000+0000") = Ret (Some (mkDate 2024 7 4)).
Proof. repeat split; reflexivity. Qed.

End MoreExamples.

(** ** What the parser and the accessor never do *)

(** [_parse_due_date] raises nothing, whatever it is given: every
    failure of [strptime] is a [ValueError], which is caught.  It issues
    no fetch, logs nothing when it returns a date or is given no text,
    and logs exactly one warning for a text it rejects. *)
Theorem parse_due_date_outcomes (decimal_digit : N -> option N)
  (str_repr : string -> string) (v : PyVal) (st : Env) :
  exists (r : option date) (new : list Log),
    _parse_due_date decimal_digit str_repr v st
    = (Ret r, mkEnv (env_logs st ++ new) (env_fetched st))
    /\ match r with
       | Some _ => new = []
       | None =>
           if truthy v && match v with VStr _ => true | _ => false end
           then exists text args, new = [mkLog WARNING text args]
           else new = []
       end.
Proof.
  assert (Hsame : mkEnv (env_logs st ++ []) (env_fetched st) = st)
    by (rewrite app_nil_r; destruct st; reflexivity).
  destruct v as [ | b | z | s | o c r | items | entries | n ];
    try (exists None, []; rewrite Hsame; split;
         [reflexivity | simpl; rewrite ?andb_false_r; reflexivity]).
  unfold _parse_due_date. simpl truthy.
  destruct (str_truthy s); cbn [negb andb].
  - unfold try_except_of, bind, log, modify, ret, lift.
    destruct (10 <=? List.length (code_points s))%nat.
    + assert (Hvalue : forall data e,
                 strptime_date decimal_digit str_repr data = Raise e ->
                 isinstance_ValueError_or_TypeError e = true).
      { intros data e. unfold strptime_date, new_date.
        repeat match goal with
               | |- context [match ?x with _ => _ end] => destruct x
               end; intros H; inversion H; reflexivity. }
      destruct (strptime_date decimal_digit str_repr (firstn 10 (code_points s)))
        as [d0 | e] eqn:Hparse.
      * exists (Some d0), []. rewrite Hsame. split; reflexivity.
      * rewrite (Hvalue _ _ Hparse). eexists None, _. split; [reflexivity|].
        eexists; eexists. reflexivity.
    + eexists None, _. split; [reflexivity|]. eexists; eexists. reflexivity.
  - exists None, []. rewrite Hsame. split; reflexivity.
Qed.

(** The accessor itself neither prints nor reads: what happens on the
    terminal and in the outside world during a call is what the two
    constructors do, and that only on the one call that initializes.
    Standard output stays free for the protocol. *)
Theorem get_client_terminal (Ext OAuth2 : Type) (cfg : Config)
  (OAuth2_init :
     (string -> M (Sys Ext) string) -> OAuth2Args -> M (Sys Ext) OAuth2)
  (TickTickClient_init :
     option string -> option string -> OAuth2 -> M (Sys Ext) TickTickClient)
  (p : Process Ext) :
  sys (snd (get_client cfg OAuth2_init TickTickClient_init p))
  = if negb (_initialized p) && credentials_present cfg
    then snd (authenticate cfg OAuth2_init TickTickClient_init (sys p))
    else sys p.
Proof.
  cbv [get_client __init__ authenticate bind try_finally try_except logging
       record_call set_instance set_initialized modify in_sys ret raise
       MCPFriendlyOAuth2 new_TickTickClient].
  destruct (_initialized p); simpl.
  - destruct (_instance p); reflexivity.
  - destruct (credentials_present cfg); simpl; [|reflexivity].
    destruct (OAuth2_init _ _ _) as [[auth | e1] s1]; simpl.
    + destruct (TickTickClient_init _ _ _ _) as [[c | e2] s2]; simpl.
      * reflexivity.
      * destruct (isinstance_Exception e2); reflexivity.
    + destruct (isinstance_Exception e1); reflexivity.
Qed.
